(** * fs-js: a shallow embedding of the File / DirectoryTree abstraction

    The development follows the JavaScript module that exports [openFile]
    and [openDirectory]: the [File] base class with its [NodeFile] and
    [DenoFile] realisations, the push-to-pull bridge built inside
    [NodeFile.stream], the seek-then-read source built inside
    [DenoFile.stream], and the directory trees.

    JavaScript values are kept as the code sees them: a bound of [slice]
    may be [undefined], an integer or [NaN]; the host (file system, open
    descriptors, the file picker) is an explicit state threaded through a
    small promise-like monad. *)

From Stdlib Require Import ZArith List Bool Lia Ascii String.
From Stdlib.Strings Require Import Byte.
From stdpp Require Import base option list gmap strings.
Import ListNotations.

Open Scope Z_scope.

(** ** JavaScript values that reach [File] *)

Module JS.

(** The offsets handled by the module are integers; [NaN] appears as the
    result of arithmetic on [undefined]. *)
Inductive value : Type :=
| Undefined
| Num (z : Z)
| NaN.

(** [ToBoolean], as used by the conditional operator [c ? a : b]. *)
Definition truthy (v : value) : bool :=
  match v with
  | Undefined => false
  | Num z => negb (z =? 0)
  | NaN => false
  end.

(** [c ? a : b] *)
Definition cond (c a b : value) : value := if truthy c then a else b.

(** [ToNumber] on the values above: [undefined] becomes [NaN]. *)
Definition to_number (v : value) : option Z :=
  match v with
  | Num z => Some z
  | Undefined | NaN => None
  end.

(** The binary [-] operator. *)
Definition sub (a b : value) : value :=
  match to_number a, to_number b with
  | Some x, Some y => Num (x - y)
  | _, _ => NaN
  end.

(** [v !== undefined] *)
Definition is_defined (v : value) : bool :=
  match v with
  | Undefined => false
  | _ => true
  end.

(** [Number.isInteger(v)] *)
Definition is_integer (v : value) : bool :=
  match v with
  | Num _ => true
  | _ => false
  end.

End JS.

(** ** Native handles *)

(** A native handle ([FileHandle] in Node, [Deno.FsFile] in Deno) is known
    to the library only by identity: the descriptor the host gave it. *)
Record Handle : Type := mkHandle { fd : nat }.

(** ** The [File] class and its two realisations *)

(** The classes of which instances are made.  [BunFile] is declared too,
    but no code path constructs one: [openFile] returns [Bun.file(path)]
    itself. *)
Inductive FileClass : Type := NodeFileClass | DenoFileClass.

(** Fields set by [File]'s constructor. *)
Record File : Type := mkFile {
  class_of : FileClass;
  _file : Handle;
  _start : JS.value;
  _end : JS.value;
  _size : JS.value
}.

(** [constructor(f, start, end)] of [File]; both subclasses only call
    [super(f, start, end)]. *)
Definition new_File (c : FileClass) (f : Handle) (start end_ : JS.value) : File :=
  {| class_of := c;
     _file := f;
     _start := start;
     _end := end_;
     _size := JS.sub end_ start |}.

(** [get size()] *)
Definition size (this : File) : JS.value := _size this.

Module NodeFile.

Definition new (f : Handle) (start end_ : JS.value) : File :=
  new_File NodeFileClass f start end_.

(** [slice(start, end, contentType)]; [contentType] is unused. *)
Definition slice (this : File) (start end_ : JS.value) : File :=
  new (_file this)
      (JS.cond start start (_start this))
      (JS.cond end_ end_ (_end this)).

End NodeFile.

Module DenoFile.

Definition new (f : Handle) (start end_ : JS.value) : File :=
  new_File DenoFileClass f start end_.

Definition slice (this : File) (start end_ : JS.value) : File :=
  new (_file this)
      (JS.cond start start (_start this))
      (JS.cond end_ end_ (_end this)).

End DenoFile.

(** Method dispatch on the receiver's class. *)
Definition slice (this : File) (start end_ : JS.value) : File :=
  match class_of this with
  | NodeFileClass => NodeFile.slice this start end_
  | DenoFileClass => DenoFile.slice this start end_
  end.

(** ** The host's [path] module (POSIX flavour)

    [nodePath] and [denoPath] are imported from the host; the library only
    calls [join].  The functions below follow the host's documented
    behaviour: the non-empty arguments are glued with a slash and the
    result is normalised, [.] segments and empty segments disappear and a
    [..] segment removes the segment before it. *)

Module Path.

Open Scope string_scope.

Fixpoint split_on (sep : ascii) (s : string) : list string :=
  match s with
  | EmptyString => [EmptyString]
  | String c rest =>
      if Ascii.eqb c sep then EmptyString :: split_on sep rest
      else match split_on sep rest with
           | [] => [String c EmptyString]
           | hd :: tl => String c hd :: tl
           end
  end.

Fixpoint concat_with (sep : string) (l : list string) : string :=
  match l with
  | [] => ""
  | [x] => x
  | x :: tl => x ++ sep ++ concat_with sep tl
  end.

(** [res] is the stack of segments kept so far, innermost first. *)
Fixpoint normalizeString (allowAboveRoot : bool) (segs res : list string)
  : list string :=
  match segs with
  | [] => rev res
  | seg :: rest =>
      if String.eqb seg "" || String.eqb seg "." then
        normalizeString allowAboveRoot rest res
      else if String.eqb seg ".." then
        match res with
        | top :: below =>
            if String.eqb top ".."
            then normalizeString allowAboveRoot rest (".." :: res)
            else normalizeString allowAboveRoot rest below
        | [] =>
            if allowAboveRoot
            then normalizeString allowAboveRoot rest [".."]
            else normalizeString allowAboveRoot rest []
        end
      else normalizeString allowAboveRoot rest (seg :: res)
  end.

Definition starts_with_slash (p : string) : bool :=
  match p with
  | String c _ => Ascii.eqb c "/"
  | EmptyString => false
  end.

Fixpoint ends_with_slash (p : string) : bool :=
  match p with
  | EmptyString => false
  | String c EmptyString => Ascii.eqb c "/"
  | String _ rest => ends_with_slash rest
  end.

Definition normalize (p : string) : string :=
  if String.eqb p "" then "."
  else
    let isAbsolute := starts_with_slash p in
    let trailingSeparator := ends_with_slash p in
    let body :=
      concat_with "/" (normalizeString (negb isAbsolute) (split_on "/" p) []) in
    if String.eqb body "" then
      if isAbsolute then "/" else if trailingSeparator then "./" else "."
    else
      let body' := if trailingSeparator then body ++ "/" else body in
      if isAbsolute then "/" ++ body' else body'.

Definition join (a b : string) : string :=
  match String.eqb a "", String.eqb b "" with
  | true, true => "."
  | true, false => normalize b
  | false, true => normalize a
  | false, false => normalize (a ++ "/" ++ b)
  end.

(** Segment-wise containment: [p] names [root] itself or something below
    it.  This is the check a root-confined lookup would have to make. *)
Fixpoint is_prefix (l1 l2 : list string) : bool :=
  match l1, l2 with
  | [], _ => true
  | x :: l1', y :: l2' => String.eqb x y && is_prefix l1' l2'
  | _ :: _, [] => false
  end.

Definition under_root (root p : string) : bool :=
  is_prefix (normalizeString false (split_on "/" root) [])
            (normalizeString false (split_on "/" p) []).

End Path.

(** ** The host: runtime globals, file system, descriptors, file picker *)

Inductive Runtime : Type :=
| RUNTIME_BROWSER
| RUNTIME_NODE
| RUNTIME_DENO
| RUNTIME_BUN.







(** Objects the host hands out that are not the library's [File]: the DOM
    [File] of a picker and Bun's lazy file reference. *)
Inductive HostFile : Type :=
| DomFile (name : string) (data : list byte)
| BunFileRef (path : string).

Inductive Syscall : Type :=
| SysOpen (path : string) (d : nat)
| SysStat (d : nat)
| SysSeek (d : nat) (offset : Z)
| SysRead (d : nat).

(** One open descriptor: the path it was opened on and its cursor. *)
Record Descriptor : Type := mkDescriptor {
  d_path : string;
  d_cursor : nat
}.

(** The host as the library can observe it: the entries of the file
    system by absolute path, the table of open descriptors (a handle's
    [fd] indexes it), the selection the file picker reports, the size of
    the buffer a native read fills at most, and the record of the calls
    made so far. *)
Record Host : Type := mkHost {
  files : gmap string (list byte);
  descriptors : list Descriptor;
  picked : list HostFile;
  chunk : positive;
  syscalls : list Syscall
}.

Inductive Error : Type :=
| ENOENT (path : string)
| EBADF
| EINVAL
| NoSuchFile
| TypeError
| RuntimeNotImplemented.

(** A settled promise. *)
Inductive Outcome (A : Type) : Type :=
| Resolved (a : A)
| Rejected (e : Error).
Arguments Resolved {A} a.
Arguments Rejected {A} e.

(** An [async] computation: it runs against the host and settles. *)
Definition IO (A : Type) : Type := Host -> Outcome A * Host.

#[global] Instance IO_ret : MRet IO := fun A a h => (Resolved a, h).
#[global] Instance IO_bind : MBind IO := fun A B k m h =>
  match m h with
  | (Resolved a, h') => k a h'
  | (Rejected e, h') => (Rejected e, h')
  end.

Definition reject {A : Type} (e : Error) : IO A := fun h => (Rejected e, h).

(** [nodeFs.promises.open(path)] and [Deno.open(path)]: a missing entry
    rejects, nothing is created. *)
Definition host_open (path : string) : IO Handle := fun h =>
  match files h !! path with
  | None => (Rejected (ENOENT path), h)
  | Some _ =>
      let d := length (descriptors h) in
      (Resolved (mkHandle d),
       mkHost (files h) (descriptors h ++ [mkDescriptor path 0%nat])
              (picked h) (chunk h) (syscalls h ++ [SysOpen path d]))
  end.

Definition contents_of (h : Host) (d : nat) : option (list byte) :=
  desc ← descriptors h !! d; files h !! d_path desc.

(** [f.stat()], of which only [size] is read. *)
Definition host_stat (f : Handle) : IO Z := fun h =>
  match contents_of h (fd f) with
  | None => (Rejected EBADF, h)
  | Some bytes =>
      (Resolved (Z.of_nat (length bytes)),
       mkHost (files h) (descriptors h) (picked h) (chunk h)
              (syscalls h ++ [SysStat (fd f)]))
  end.

(** [f.seek(offset, Deno.SeekMode.Start)] *)
Definition host_seek (f : Handle) (offset : JS.value) : IO unit := fun h =>
  match offset, descriptors h !! fd f with
  | JS.Num z, Some desc =>
      if z <? 0 then (Rejected EINVAL, h)
      else
        (Resolved tt,
         mkHost (files h)
                (<[fd f := mkDescriptor (d_path desc) (Z.to_nat z)]> (descriptors h))
                (picked h) (chunk h) (syscalls h ++ [SysSeek (fd f) z]))
  | JS.Num _, None => (Rejected EBADF, h)
  | _, _ => (Rejected TypeError, h)
  end.

(** One [read()] on the reader of [f.readable]: the next chunk from the
    cursor, of at most [chunk] bytes, or [None] for [done] at the end of
    the file. *)
Definition host_read (f : Handle) : IO (option (list byte)) := fun h =>
  match descriptors h !! fd f, contents_of h (fd f) with
  | Some desc, Some bytes =>
      let rest := drop (d_cursor desc) bytes in
      let piece := take (Pos.to_nat (chunk h)) rest in
      (Resolved (match piece with [] => None | _ => Some piece end),
       mkHost (files h)
              (<[fd f := mkDescriptor (d_path desc)
                                      (d_cursor desc + length piece)%nat]>
                 (descriptors h))
              (picked h) (chunk h) (syscalls h ++ [SysRead (fd f)]))
  | _, _ => (Rejected EBADF, h)
  end.

(** ** Directory trees *)

(** What an [openFile] promise can resolve to.  Besides the library's own
    [File], the code hands back host objects unchanged; a property read on
    the plain object [_files] can also find a member of
    [Object.prototype], and [files[0]] of an empty selection is
    [undefined]. *)
Inductive Opened : Type :=
| LibraryFile (f : File)
| HostObject (o : HostFile)
| InheritedMember (name : string)
| UndefinedValue.

(** Property names every plain object inherits. *)
Definition Object_prototype : list string :=
  [ "constructor"; "hasOwnProperty"; "isPrototypeOf"; "propertyIsEnumerable";
    "toLocaleString"; "toString"; "valueOf"; "__proto__";
    "__defineGetter__"; "__defineSetter__";
    "__lookupGetter__"; "__lookupSetter__" ]%string.

(** [obj[key]] on an object created by [{}] whose own properties are
    [own]. *)
Definition get_property (own : gmap string HostFile) (key : string) : Opened :=
  match own !! key with
  | Some o => HostObject o
  | None =>
      if existsb (String.eqb key) Object_prototype
      then InheritedMember key
      else UndefinedValue
  end.

Inductive DirectoryTree : Type :=
| BrowserDirectoryTree (_files : gmap string HostFile)
| NodeDirectoryTree (_rootPath : string)
| DenoDirectoryTree (_rootPath : string).

Module BrowserTree.

(** [constructor()]: the root is ['/'] and [_files] is [{}]. *)
Definition new : DirectoryTree := BrowserDirectoryTree ∅.

Definition openFile (_files : gmap string HostFile) (path : string) : IO Opened :=
  match get_property _files path with
  | UndefinedValue => reject NoSuchFile
  | v => mret v
  end.

Definition file_name (o : HostFile) : string :=
  match o with
  | DomFile name _ => name
  | BunFileRef path => path
  end.

(** The loop of [addFiles()]: every file of the selection is stored
    under ['/' + file.name], in the order of the selection. *)
Definition store (_files : gmap string HostFile) (selection : list HostFile)
  : gmap string HostFile :=
  fold_left (fun m o => <[("/" ++ file_name o)%string := o]> m) selection _files.

(** [addFiles()]: the object [_files] after the call, and the selection,
    which is the value returned. *)
Definition addFiles (_files : gmap string HostFile)
  : IO (gmap string HostFile * list HostFile) :=
  fun h => (Resolved (store _files (picked h), picked h), h).

End BrowserTree.

Module NodeTree.

(** No check is made on [absPath]: the source marks this
    [TODO: CRITICAL: path security]. *)
Definition openFile (_rootPath path : string) : IO Opened :=
  let absPath := Path.join _rootPath path in
  f ← host_open absPath;
  fileInfo_size ← host_stat f;
  mret (LibraryFile (NodeFile.new f (JS.Num 0) (JS.Num fileInfo_size))).

End NodeTree.

Module DenoTree.

Definition openFile (_rootPath path : string) : IO Opened :=
  let absPath := Path.join _rootPath path in
  f ← host_open absPath;
  fileInfo_size ← host_stat f;
  mret (LibraryFile (DenoFile.new f (JS.Num 0) (JS.Num fileInfo_size))).

End DenoTree.

(** [tree.openFile(path)] *)
Definition tree_openFile (tree : DirectoryTree) (path : string) : IO Opened :=
  match tree with
  | BrowserDirectoryTree _files => BrowserTree.openFile _files path
  | NodeDirectoryTree root => NodeTree.openFile root path
  | DenoDirectoryTree root => DenoTree.openFile root path
  end.

(** ** The exported functions *)

Definition openFile (runtime : Runtime) (path : string) : IO Opened :=
  match runtime with
  | RUNTIME_BROWSER =>
      (* resolve(fileInput.files[0]) once the picker reports a change *)
      fun h =>
        (Resolved (match picked h with
                   | o :: _ => HostObject o
                   | [] => UndefinedValue
                   end), h)
  | RUNTIME_NODE =>
      f ← host_open path;
      mret (LibraryFile (NodeFile.new f JS.Undefined JS.Undefined))
  | RUNTIME_DENO =>
      f ← host_open path;
      fileInfo_size ← host_stat f;
      mret (LibraryFile (DenoFile.new f (JS.Num 0) (JS.Num fileInfo_size)))
  | RUNTIME_BUN =>
      (* Bun.file(path) is returned as it is *)
      mret (HostObject (BunFileRef path))
  end.


(** ** The host's [ReadableStream] controller

    Both adapters talk to a [ReadableStreamDefaultController].  No queuing
    strategy is passed to [new ReadableStream], so the high-water mark is
    the default 1 and every chunk counts for 1. *)

Module Web.

Inductive State : Type := Readable | Closed | Errored.

Record Controller : Type := mkController {
  state : State;
  queue : list (list byte);
  closeRequested : bool;
  highWaterMark : Z
}.

Definition new : Controller :=
  {| state := Readable; queue := []; closeRequested := false;
     highWaterMark := 1 |}.

Definition errored : Controller :=
  {| state := Errored; queue := []; closeRequested := false;
     highWaterMark := 1 |}.

(** [controller.desiredSize]: [null] when errored, 0 when closed. *)
Definition desiredSize (c : Controller) : option Z :=
  match state c with
  | Errored => None
  | Closed => Some 0
  | Readable => Some (highWaterMark c - Z.of_nat (length (queue c)))
  end.

(** [controller.desiredSize > 0]; [null > 0] is false. *)
Definition desiredSize_positive (c : Controller) : bool :=
  match desiredSize c with
  | Some z => 0 <? z
  | None => false
  end.

Definition canCloseOrEnqueue (c : Controller) : bool :=
  match state c with
  | Readable => negb (closeRequested c)
  | _ => false
  end.

(** [controller.enqueue(chunk)]; [None] is the [TypeError] it throws. *)
Definition enqueue (c : Controller) (chunk : list byte) : option Controller :=
  if canCloseOrEnqueue c
  then Some (mkController (state c) (queue c ++ [chunk]) (closeRequested c)
                          (highWaterMark c))
  else None.

(** [controller.close()]: the stream closes at once when nothing is
    queued, otherwise when the queue has been read. *)
Definition close (c : Controller) : option Controller :=
  if canCloseOrEnqueue c
  then Some (mkController (match queue c with [] => Closed | _ => Readable end)
                          (queue c) true (highWaterMark c))
  else None.

(** The consumer takes the chunk at the head of the queue.  A read that
    finds nothing queued stays pending in the host and is not recorded
    here. *)
Definition read (c : Controller) : option (list byte) * Controller :=
  match state c, queue c with
  | Readable, chunk :: rest =>
      (Some chunk,
       mkController (match rest with
                     | [] => if closeRequested c then Closed else Readable
                     | _ => Readable
                     end)
                    rest (closeRequested c) (highWaterMark c))
  | _, _ => (None, c)
  end.

(** The consumer cancels: the stream is closed and its queue dropped
    before the source's [cancel] callback runs. *)
Definition cancel (c : Controller) : Controller :=
  match state c with
  | Readable => mkController Closed [] (closeRequested c) (highWaterMark c)
  | _ => c
  end.

End Web.

(** ** [DenoFile.stream]: the seek-then-read source *)

Inductive Stream : Type :=
| SourceStream (ctl : Web.Controller)   (* new ReadableStream({ start, pull }) *)
| NativeReadable (f : Handle).          (* this._file.readable *)

Module DenoStream.

(** The [start] callback.  The [ReadableStream] constructor calls it
    before it returns.  After the seek it takes the reader of
    [self._file.readable]; the reads of [pull] go through that reader and
    so through [host_read] on the same handle. *)
Definition start (self : File) : IO unit :=
  host_seek (_file self) (_start self).

(** The [pull] callback. *)
Definition pull (self : File) (controller : Web.Controller) : IO Web.Controller :=
  r ← host_read (_file self);
  match r with
  | None =>
      match Web.close controller with
      | Some c => mret c
      | None => reject TypeError
      end
  | Some value =>
      match Web.enqueue controller value with
      | Some c => mret c
      | None => reject TypeError
      end
  end.

(** [stream()].  A rejected [start] leaves an errored stream; the method
    itself still returns the stream object. *)
Definition stream (this : File) : IO Stream := fun h =>
  if JS.is_defined (_start this) then
    match start this h with
    | (Resolved _, h') => (Resolved (SourceStream Web.new), h')
    | (Rejected _, h') => (Resolved (SourceStream Web.errored), h')
    end
  else (Resolved (NativeReadable (_file this)), h).

(** A consumer that reads to the end: it takes a queued chunk when there
    is one and otherwise lets the stream pull.  [None] means the fuel
    ran out first. *)
Fixpoint read_all (fuel : nat) (self : File) (ctl : Web.Controller)
  : IO (option (list (list byte))) :=
  match fuel with
  | O => mret None
  | S fuel' =>
      match Web.state ctl with
      | Web.Closed => mret (Some [])
      | Web.Errored => reject TypeError
      | Web.Readable =>
          match Web.read ctl with
          | (Some chunk, ctl') =>
              rest ← read_all fuel' self ctl';
              mret (cons chunk <$> rest)
          | (None, _) =>
              ctl' ← pull self ctl;
              read_all fuel' self ctl'
          end
      end
  end.

(** Up to [n] pulls in a row, as the stream issues them while the
    consumer keeps reading; the stream stops pulling once it is closed. *)
Fixpoint pulls (n : nat) (self : File) (ctl : Web.Controller) : IO Web.Controller :=
  match n with
  | O => mret ctl
  | S n' =>
      if Web.canCloseOrEnqueue ctl then
        ctl' ← pull self ctl;
        pulls n' self (snd (Web.read ctl'))
      else mret ctl
  end.

End DenoStream.

(** ** [NodeFile.stream]: the push-to-pull bridge *)

Module NodeStream.

(** What [createReadStream({ start, end })] will emit, as one run of
    bytes.  The host documents both bounds as inclusive; an absent
    [start] reads from the beginning and an absent [end] to the end of
    the file. *)
Definition createReadStream (bytes : list byte) (start end_ : JS.value)
  : option (list byte) :=
  let from := match start with
              | JS.Num z => if z <? 0 then None else Some (Z.to_nat z)
              | JS.Undefined => Some 0%nat
              | JS.NaN => None
              end in
  let upto := match end_ with
              | JS.Num z => if z <? 0 then None else Some (S (Z.to_nat z))
              | JS.Undefined => Some (length bytes)
              | JS.NaN => None
              end in
  match from, upto with
  | Some a, Some b => Some (drop a (take b bytes))
  | _, _ => None
  end.

(** The closure state of one [stream()] call: the flag [done], the
    controller captured by [start], and the native stream's mode.  The
    three counters only record calls ([controller.close()],
    [nodeStream.close()], and exceptions thrown inside a handler) and
    [delivered] what the consumer has read. *)
Record Bridge : Type := mkBridge {
  done : bool;
  controller : Web.Controller;
  flowing : bool;
  controller_close_calls : nat;
  nodeStream_close_calls : nat;
  thrown : nat;
  delivered : list (list byte)
}.

(** After [stream()] returns: [start] has stored the controller, and
    attaching the ['data'] listener has put the native stream in flowing
    mode. *)
Definition new : Bridge :=
  {| done := false; controller := Web.new; flowing := true;
     controller_close_calls := 0; nodeStream_close_calls := 0;
     thrown := 0; delivered := [] |}.

(** [pull(contr)] *)
Definition pull (b : Bridge) : Bridge :=
  if Web.desiredSize_positive (controller b)
  then mkBridge (done b) (controller b) true (* nodeStream.resume() *)
                (controller_close_calls b) (nodeStream_close_calls b)
                (thrown b) (delivered b)
  else b.

(** [cancel()] *)
Definition cancel (b : Bridge) : Bridge :=
  mkBridge true (controller b) (flowing b)
           (controller_close_calls b) (S (nodeStream_close_calls b))
           (thrown b) (delivered b).

(** [nodeStream.on('data', (chunk) => ...)] *)
Definition on_data (b : Bridge) (chunk : list byte) : Bridge :=
  if Web.desiredSize_positive (controller b) then
    match Web.enqueue (controller b) chunk with
    | Some c => mkBridge (done b) c (flowing b)
                         (controller_close_calls b) (nodeStream_close_calls b)
                         (thrown b) (delivered b)
    | None => mkBridge (done b) (controller b) (flowing b)
                       (controller_close_calls b) (nodeStream_close_calls b)
                       (S (thrown b)) (delivered b)
    end
  else
    mkBridge (done b) (controller b) false (* nodeStream.pause() *)
             (controller_close_calls b) (nodeStream_close_calls b)
             (thrown b) (delivered b).

(** [nodeStream.on('close', (chunk) => ...)] *)
Definition on_close (b : Bridge) : Bridge :=
  if negb (done b) then
    match Web.close (controller b) with
    | Some c => mkBridge true c (flowing b)
                         (S (controller_close_calls b)) (nodeStream_close_calls b)
                         (thrown b) (delivered b)
    | None => mkBridge (done b) (controller b) (flowing b)
                       (S (controller_close_calls b)) (nodeStream_close_calls b)
                       (S (thrown b)) (delivered b)
    end
  else b.

(** What can happen to a bridge: the producer's two notifications and
    the consumer's three requests. *)
Inductive Event : Type :=
| ProducerData (chunk : list byte)
| ProducerClose
| ConsumerPull
| ConsumerRead
| ConsumerCancel.

Definition step (b : Bridge) (e : Event) : Bridge :=
  match e with
  | ProducerData chunk => on_data b chunk
  | ProducerClose => on_close b
  | ConsumerPull => pull b
  | ConsumerRead =>
      match Web.read (controller b) with
      | (Some chunk, c) =>
          mkBridge (done b) c (flowing b)
                   (controller_close_calls b) (nodeStream_close_calls b)
                   (thrown b) (delivered b ++ [chunk])
      | (None, _) => b
      end
  | ConsumerCancel =>
      cancel (mkBridge (done b) (Web.cancel (controller b)) (flowing b)
                       (controller_close_calls b) (nodeStream_close_calls b)
                       (thrown b) (delivered b))
  end.

Definition run (b : Bridge) (evs : list Event) : Bridge := fold_left step evs b.

(** [stream()] on a file whose handle is open on [bytes]: what the native
    stream will emit, and the bridge in its initial state. *)
Definition stream (this : File) (bytes : list byte) : option (list byte) * Bridge :=
  (createReadStream bytes (_start this) (_end this), new).

(** Every chunk the bridge still holds or has handed over. *)
Definition retained (b : Bridge) : list (list byte) :=
  delivered b ++ Web.queue (controller b).

(** While [done] is false the bridge has neither closed nor been
    cancelled: the controller still accepts [enqueue] and [close], and
    [controller.close()] has not been called.  Once [done] is true it
    has been called at most once. *)
Definition invariant (b : Bridge) : Prop :=
  if done b
  then (controller_close_calls b <= 1)%nat
  else Web.canCloseOrEnqueue (controller b) = true /\
       controller_close_calls b = 0%nat.

End NodeStream.

(** ** Observations and sample data *)

(** What the promise settled to, without the host. *)
Definition settled {A : Type} (r : Outcome A * Host) : Outcome A := fst r.

Definition ten_bytes : list byte :=
  [x00; x01; x02; x03; x04; x05; x06; x07; x08; x09].

Definition secret_bytes : list byte := [x73; x65; x63; x72; x65; x74].

(** A host with one file under the served root and one next to it. *)
Definition sample_host : Host :=
  {| files := {[ "/srv/www/data.bin"%string := ten_bytes;
                 "/srv/secret.txt"%string := secret_bytes ]};
     descriptors := [];
     picked := [];
     chunk := 4%positive;
     syscalls := [] |}.

Definition is_seek (c : Syscall) : bool :=
  match c with
  | SysSeek _ _ => true
  | _ => false
  end.

(** The seeks a host has performed so far, oldest first. *)
Definition seeks (h : Host) : list Syscall := List.filter is_seek (syscalls h).

(** The reading of "no seek is performed at the time the stream object is
    constructed": the call to [stream()] adds no seek to the host's
    record. *)
Definition no_seek_at_construction (this : File) (h : Host) : Prop :=
  seeks (snd (DenoStream.stream this h)) = seeks h.

(** The host after the sample tree has opened [data.bin]: descriptor 0 is
    open on the ten-byte file. *)
Definition opened_host : Host :=
  snd (tree_openFile (DenoDirectoryTree "/srv/www") "data.bin" sample_host).

(** The file [slice(3, 7)] of the ten-byte file. *)
Definition part_3_7 : File :=
  slice (DenoFile.new (mkHandle 0) (JS.Num 0) (JS.Num 10)) (JS.Num 3) (JS.Num 7).

(** Under Deno: open through a tree, slice, stream and read to the end;
    the result is the bytes the consumer received. *)
Definition read_slice (root path : string) (a b : JS.value)
    (fuel : nat) : IO (option (list byte)) :=
  opened ← tree_openFile (DenoDirectoryTree root) path;
  match opened with
  | LibraryFile file =>
      let part := slice file a b in
      s ← DenoStream.stream part;
      match s with
      | SourceStream ctl =>
          chunks ← DenoStream.read_all fuel part ctl;
          mret (@List.concat byte <$> chunks)
      | NativeReadable _ => reject TypeError
      end
  | _ => reject TypeError
  end.

(** The host after one [read()] that returned [piece]. *)
Definition after_read (h : Host) (d : nat) (desc : Descriptor) (piece : list byte) : Host :=
  mkHost (files h)
         (<[d := mkDescriptor (d_path desc) (d_cursor desc + length piece)%nat]>
            (descriptors h))
         (picked h) (chunk h) (syscalls h ++ [SysRead d]).

Definition closed_controller : Web.Controller :=
  Web.mkController Web.Closed [] true 1.

(** ** Further observations *)

(** The chunk an event hands to the bridge, if any. *)
Definition emitted (e : NodeStream.Event) : list (list byte) :=
  match e with
  | NodeStream.ProducerData chunk => [chunk]
  | _ => []
  end.

(** The chunks the producer emitted over a run of events, in order. *)
Definition produced (evs : list NodeStream.Event) : list (list byte) :=
  flat_map emitted evs.

(** A consumer that keeps up: it reads each chunk before the next one
    arrives, and the producer closes at the end. *)
Definition keeping_up (chunks : list (list byte)) : list NodeStream.Event :=
  flat_map (fun chunk => [NodeStream.ProducerData chunk; NodeStream.ConsumerRead])
           chunks
  ++ [NodeStream.ProducerClose].

(** A producer that emits a run of chunks with no read in between. *)
Definition burst (chunks : list (list byte)) : list NodeStream.Event :=
  map NodeStream.ProducerData chunks.

(** What holds of the controller behind a bridge throughout: the default
    high-water mark, no handler has thrown, at most one chunk is queued, a
    closed stream has an empty queue, a requested close is pending only
    while a chunk is still queued, and the controller accepts chunks for
    as long as [done] is false. *)
Record steady (b : NodeStream.Bridge) : Prop := mkSteady {
  steady_hwm : Web.highWaterMark (NodeStream.controller b) = 1;
  steady_thrown : NodeStream.thrown b = 0%nat;
  steady_queue : (length (Web.queue (NodeStream.controller b)) <= 1)%nat;
  steady_state : Web.state (NodeStream.controller b) <> Web.Errored;
  steady_closed : Web.state (NodeStream.controller b) = Web.Closed ->
                  Web.queue (NodeStream.controller b) = [];
  steady_pending : Web.closeRequested (NodeStream.controller b) = true ->
                   Web.state (NodeStream.controller b) = Web.Readable ->
                   Web.queue (NodeStream.controller b) <> [];
  steady_open : NodeStream.done b = false ->
                Web.canCloseOrEnqueue (NodeStream.controller b) = true
}.



(** * Properties *)

(** ** The path module on small inputs *)

Example join_plain : Path.join "/srv/www" "a/b.txt" = "/srv/www/a/b.txt"%string.
Proof. reflexivity. Qed.

Example join_dotdot : Path.join "/srv/www" "../secret.txt" = "/srv/secret.txt"%string.
Proof. reflexivity. Qed.

Example join_dot : Path.join "/srv/www/" "./x//y/" = "/srv/www/x/y/"%string.
Proof. reflexivity. Qed.

Example under_root_inside : Path.under_root "/srv/www" "/srv/www/a/b.txt" = true.
Proof. reflexivity. Qed.

Example under_root_outside : Path.under_root "/srv/www" "/srv/secret.txt" = false.
Proof. reflexivity. Qed.

(** ** [slice] and [size] *)

Lemma truthy_Num (z : Z) : z <> 0 -> JS.truthy (JS.Num z) = true.
Proof. intros Hz. simpl. apply negb_true_iff, Z.eqb_neq, Hz. Qed.

Lemma cond_Num (z : Z) (d : JS.value) :
  z <> 0 -> JS.cond (JS.Num z) (JS.Num z) d = JS.Num z.
Proof. intros Hz. unfold JS.cond. now rewrite truthy_Num. Qed.

Lemma slice_unfold (this : File) (start end_ : JS.value) :
  slice this start end_ =
  new_File (class_of this) (_file this)
           (JS.cond start start (_start this))
           (JS.cond end_ end_ (_end this)).
Proof. unfold slice. destruct (class_of this); reflexivity. Qed.

(** With two non-zero integer bounds the new file spans exactly the bounds
    given, whatever the receiver's own range. *)
Lemma slice_nonzero_bounds (this : File) (a b : Z) :
  a <> 0 -> b <> 0 ->
  _start (slice this (JS.Num a) (JS.Num b)) = JS.Num a /\
  _end (slice this (JS.Num a) (JS.Num b)) = JS.Num b /\
  size (slice this (JS.Num a) (JS.Num b)) = JS.Num (b - a).
Proof.
  intros Ha Hb. rewrite slice_unfold. unfold size, new_File. simpl.
  rewrite (cond_Num a), (cond_Num b) by assumption. auto.
Qed.

(** C3: for [0 <= start <= end <= file.size] the size of
    [file.slice(start, end)] should be [end - start].  On a ten-byte file
    spanning [[0, 10)] the bounds [start = 0], [end = 0] are in range, yet
    the slice spans [[0, 10)] again and reports size 10, not 0: the test
    [end ? end : this._end] takes the zero for an absent argument.  The
    same happens through [DenoFile.slice]. *)
Theorem slice_zero_zero_size :
  let file := NodeFile.new (mkHandle 0) (JS.Num 0) (JS.Num 10) in
  size file = JS.Num 10 /\
  size (slice file (JS.Num 0) (JS.Num 0)) = JS.Num 10 /\
  size (slice file (JS.Num 0) (JS.Num 0)) <> JS.Num (0 - 0) /\
  size (DenoFile.slice (DenoFile.new (mkHandle 0) (JS.Num 0) (JS.Num 10))
                       (JS.Num 0) (JS.Num 0)) = JS.Num 10.
Proof. cbv zeta. repeat split; try reflexivity. discriminate. Qed.

(** C8: [slice] builds the new [File] on the receiver's own handle, and a
    bound left out ([undefined]) is replaced by the receiver's own
    [_start] or [_end]; with both left out the result spans the
    receiver's range again. *)
Theorem slice_same_handle_defaults :
  forall (this : File) (start end_ : JS.value),
    _file (slice this start end_) = _file this /\
    class_of (slice this start end_) = class_of this /\
    _start (slice this JS.Undefined end_) = _start this /\
    _end (slice this start JS.Undefined) = _end this /\
    slice this JS.Undefined JS.Undefined =
      new_File (class_of this) (_file this) (_start this) (_end this).
Proof.
  intros this start end_. rewrite !slice_unfold. simpl. auto.
Qed.

(** A file made by the constructor is returned unchanged by [slice()]. *)
Lemma slice_no_arguments (c : FileClass) (f : Handle) (s e : JS.value) :
  slice (new_File c f s e) JS.Undefined JS.Undefined = new_File c f s e.
Proof. rewrite slice_unfold. reflexivity. Qed.

(** C9: a bound of 0 is handled as a bound left out.  On a file whose
    start is [s > 0], [slice(0, e)] starts at [s]; on any file,
    [slice(s, 0)] ends at the file's own end; both calls equal the call
    with the bound omitted. *)
Theorem slice_zero_bound_as_omitted :
  forall (this : File) (a e : JS.value),
    (forall s : Z, 0 < s -> _start this = JS.Num s ->
       _start (slice this (JS.Num 0) e) = JS.Num s /\
       _start (slice this (JS.Num 0) e) <> JS.Num 0) /\
    _end (slice this a (JS.Num 0)) = _end this /\
    slice this (JS.Num 0) e = slice this JS.Undefined e /\
    slice this a (JS.Num 0) = slice this a JS.Undefined.
Proof.
  intros this a e. rewrite !slice_unfold. simpl.
  split; [| repeat split; reflexivity].
  intros s Hs Hstart. rewrite Hstart. split; [reflexivity |].
  intros Heq. injection Heq. lia.
Qed.

Lemma slice_zero_bound_as_omitted_witness :
  let this := NodeFile.new (mkHandle 0) (JS.Num 5) (JS.Num 10) in
  _start (slice this (JS.Num 0) (JS.Num 8)) = JS.Num 5 /\
  _start (slice this (JS.Num 0) (JS.Num 8)) <> JS.Num 0 /\
  _end (slice this (JS.Num 6) (JS.Num 0)) = JS.Num 10.
Proof.
  cbv zeta.
  destruct (slice_zero_bound_as_omitted
              (NodeFile.new (mkHandle 0) (JS.Num 5) (JS.Num 10))
              (JS.Num 6) (JS.Num 8)) as [Hstart [Hend _]].
  destruct (Hstart 5 ltac:(lia) eq_refl) as [Hs Hne].
  split; [exact Hs | split; [exact Hne | exact Hend]].
Defined.

(** ** Opening files *)

(** The tree realisations stat the handle and build the file over
    [[0, size)]: its size is the integer length of the entry. *)
Lemma NodeTree_openFile_found (root path : string) (h : Host) (bytes : list byte) :
  files h !! Path.join root path = Some bytes ->
  settled (NodeTree.openFile root path h) =
    Resolved (LibraryFile (NodeFile.new (mkHandle (length (descriptors h)))
                                        (JS.Num 0)
                                        (JS.Num (Z.of_nat (length bytes))))).
Proof.
  intros Hfile. unfold settled, NodeTree.openFile, mbind, IO_bind, host_open.
  rewrite Hfile. unfold host_stat, contents_of. simpl.
  rewrite lookup_app_r by lia. rewrite Nat.sub_diag. simpl.
  rewrite Hfile. reflexivity.
Qed.

Lemma DenoTree_openFile_found (root path : string) (h : Host) (bytes : list byte) :
  files h !! Path.join root path = Some bytes ->
  settled (DenoTree.openFile root path h) =
    Resolved (LibraryFile (DenoFile.new (mkHandle (length (descriptors h)))
                                        (JS.Num 0)
                                        (JS.Num (Z.of_nat (length bytes))))).
Proof.
  intros Hfile. unfold settled, DenoTree.openFile, mbind, IO_bind, host_open.
  rewrite Hfile. unfold host_stat, contents_of. simpl.
  rewrite lookup_app_r by lia. rewrite Nat.sub_diag. simpl.
  rewrite Hfile. reflexivity.
Qed.



Lemma BrowserTree_openFile_missing (own : gmap string HostFile) (path : string) (h : Host) :
  own !! path = None ->
  existsb (String.eqb path) Object_prototype = false ->
  BrowserTree.openFile own path h = (Rejected NoSuchFile, h).
Proof.
  intros Hown Hproto. unfold BrowserTree.openFile, get_property.
  rewrite Hown, Hproto. reflexivity.
Qed.

(** C4: an [openFile] that returns a [File] should return one with an
    integer size equal to [end - start].  Under the Node runtime
    [openFile] calls [new NodeFile(f)] with no bounds: the file it
    resolves to has [_start] and [_end] undefined and its size is [NaN].
    The Deno case of the same switch, and both directory trees, stat the
    handle and pass [0] and the size. *)
Theorem openFile_node_size_NaN :
  exists f : File,
    settled (openFile RUNTIME_NODE "/srv/www/data.bin" sample_host) =
      Resolved (LibraryFile f) /\
    _start f = JS.Undefined /\
    _end f = JS.Undefined /\
    size f = JS.NaN /\
    JS.is_integer (size f) = false /\
    settled (openFile RUNTIME_DENO "/srv/www/data.bin" sample_host) =
      Resolved (LibraryFile (DenoFile.new (mkHandle 0) (JS.Num 0) (JS.Num 10))).
Proof.
  eexists. split; [vm_compute; reflexivity |].
  repeat split; vm_compute; reflexivity.
Qed.

(** The same for every path that exists, on every host. *)
Lemma openFile_node_unsized (path : string) (h : Host) (bytes : list byte) :
  files h !! path = Some bytes ->
  settled (openFile RUNTIME_NODE path h) =
    Resolved (LibraryFile (NodeFile.new (mkHandle (length (descriptors h)))
                                        JS.Undefined JS.Undefined)) /\
  size (NodeFile.new (mkHandle (length (descriptors h)))
                     JS.Undefined JS.Undefined) = JS.NaN.
Proof.
  intros Hfile. split; [| reflexivity].
  unfold settled, openFile, mbind, IO_bind, host_open. rewrite Hfile. reflexivity.
Qed.

(** C5: a relative path that leaves the root should be refused.  The tree
    rooted at [/srv/www] opens [../secret.txt]: the joined path is
    [/srv/secret.txt], outside the root, and the promise resolves to a
    [File] over that entry.  The source marks the method
    [TODO: CRITICAL: path security].  The other half of the claim holds: a
    path with no entry rejects with [ENOENT] and leaves the host
    unchanged. *)
Theorem NodeTree_openFile_escapes_root :
  Path.join "/srv/www" "../secret.txt" = "/srv/secret.txt"%string /\
  Path.under_root "/srv/www" (Path.join "/srv/www" "../secret.txt") = false /\
  settled (tree_openFile (NodeDirectoryTree "/srv/www") "../secret.txt" sample_host) =
    Resolved (LibraryFile (NodeFile.new (mkHandle 0) (JS.Num 0) (JS.Num 6))) /\
  contents_of
    (snd (tree_openFile (NodeDirectoryTree "/srv/www") "../secret.txt" sample_host)) 0
    = Some secret_bytes /\
  settled (tree_openFile (DenoDirectoryTree "/srv/www") "../secret.txt" sample_host) =
    Resolved (LibraryFile (DenoFile.new (mkHandle 0) (JS.Num 0) (JS.Num 6))) /\
  tree_openFile (NodeDirectoryTree "/srv/www") "missing.txt" sample_host =
    (Rejected (ENOENT "/srv/www/missing.txt"), sample_host).
Proof. repeat split; vm_compute; reflexivity. Qed.

(** The in-memory tree reads [_files[path]] on a plain object: a name that
    [Object.prototype] defines is found although no file was added under
    it. *)
Example BrowserTree_openFile_inherited :
  settled (tree_openFile BrowserTree.new "constructor" sample_host) =
    Resolved (InheritedMember "constructor") /\
  settled (tree_openFile BrowserTree.new "/a.txt" sample_host) = Rejected NoSuchFile.
Proof. split; vm_compute; reflexivity. Qed.

(** C10: under the Bun and browser runtimes [openFile] resolves to the
    host's own object, [Bun.file(path)] or the first file of the picker's
    selection, and on no host to a library [File]; neither case touches
    the file system. *)
Theorem openFile_bun_browser_host_object :
  forall (path : string) (h : Host),
    openFile RUNTIME_BUN path h = (Resolved (HostObject (BunFileRef path)), h) /\
    (forall (o : HostFile) (rest : list HostFile),
        picked h = o :: rest ->
        openFile RUNTIME_BROWSER path h = (Resolved (HostObject o), h)) /\
    (forall f : File,
        settled (openFile RUNTIME_BUN path h) <> Resolved (LibraryFile f) /\
        settled (openFile RUNTIME_BROWSER path h) <> Resolved (LibraryFile f)).
Proof.
  intros path h. split; [reflexivity |]. split.
  - intros o rest Hpicked. unfold openFile. rewrite Hpicked. reflexivity.
  - intros f. split.
    + discriminate.
    + unfold settled, openFile. simpl. destruct (picked h); discriminate.
Qed.

Lemma openFile_bun_browser_host_object_witness :
  let h := mkHost ∅ [] [DomFile "photo.png" [x89; x50]] 4%positive [] in
  openFile RUNTIME_BROWSER "ignored" h =
    (Resolved (HostObject (DomFile "photo.png" [x89; x50])), h).
Proof.
  cbv zeta.
  destruct (openFile_bun_browser_host_object "ignored"
              (mkHost ∅ [] [DomFile "photo.png" [x89; x50]] 4%positive []))
    as [_ [Hbrowser _]].
  exact (Hbrowser (DomFile "photo.png" [x89; x50]) [] eq_refl).
Defined.

(** ** The bridge of [NodeFile.stream] *)

Section Bridge.

Import NodeStream.

Lemma canCloseOrEnqueue_inv (c : Web.Controller) :
  Web.canCloseOrEnqueue c = true ->
  Web.state c = Web.Readable /\ Web.closeRequested c = false.
Proof.
  unfold Web.canCloseOrEnqueue. destruct (Web.state c); try discriminate.
  intros H. split; [reflexivity |]. now apply negb_true_iff.
Qed.

Lemma bridge_inv_new : invariant new.
Proof. simpl. split; reflexivity. Qed.

(** The ['data'] handler touches neither [done] nor the close count, and
    leaves the controller as willing to accept chunks as it was. *)
Lemma on_data_frame (b : Bridge) (chunk : list byte) :
  done (on_data b chunk) = done b /\
  controller_close_calls (on_data b chunk) = controller_close_calls b /\
  Web.canCloseOrEnqueue (controller (on_data b chunk)) =
    Web.canCloseOrEnqueue (controller b).
Proof.
  unfold on_data, Web.enqueue.
  destruct (Web.desiredSize_positive (controller b)); [| auto].
  destruct (Web.canCloseOrEnqueue (controller b)) eqn:Hcan; simpl; auto.
Qed.

Lemma pull_frame (b : Bridge) :
  done (pull b) = done b /\
  controller_close_calls (pull b) = controller_close_calls b /\
  controller (pull b) = controller b.
Proof.
  unfold pull. destruct (Web.desiredSize_positive (controller b)); auto.
Qed.

Lemma read_keeps_open (c c' : Web.Controller) (chunk : list byte) :
  Web.canCloseOrEnqueue c = true ->
  Web.read c = (Some chunk, c') ->
  Web.canCloseOrEnqueue c' = true.
Proof.
  intros Hcan Hread.
  destruct (canCloseOrEnqueue_inv _ Hcan) as [Hstate Hreq].
  unfold Web.read in Hread. rewrite Hstate, Hreq in Hread.
  destruct (Web.queue c) as [| x rest]; [discriminate |].
  injection Hread as _ <-. unfold Web.canCloseOrEnqueue. simpl.
  destruct rest; reflexivity.
Qed.

Lemma bridge_inv_step (b : Bridge) (e : Event) :
  invariant b -> invariant (step b e).
Proof.
  unfold invariant. intros Hinv. destruct e as [chunk | | | |]; simpl.
  - destruct (on_data_frame b chunk) as [-> [-> ->]]. exact Hinv.
  - unfold on_close. destruct (done b) eqn:Hdone; simpl.
    + rewrite Hdone. exact Hinv.
    + destruct Hinv as [Hcan Hcalls]. unfold Web.close. rewrite Hcan. simpl.
      rewrite Hcalls. lia.
  - destruct (pull_frame b) as [-> [-> ->]]. exact Hinv.
  - destruct (Web.read (controller b)) as [[chunk |] c] eqn:Hread; simpl;
      [| exact Hinv].
    destruct (done b); [exact Hinv |].
    destruct Hinv as [Hcan Hcalls]. split; [| exact Hcalls].
    exact (read_keeps_open _ _ _ Hcan Hread).
  - destruct (done b); [exact Hinv | destruct Hinv as [_ ->]; lia].
Qed.

Lemma bridge_inv_run (evs : list Event) (b : Bridge) :
  invariant b -> invariant (run b evs).
Proof.
  revert b. induction evs as [| e evs IH]; intros b Hinv; [exact Hinv |].
  simpl. apply IH, bridge_inv_step, Hinv.
Qed.

Lemma on_close_noop (b : Bridge) : done b = true -> on_close b = b.
Proof. intros Hdone. unfold on_close. now rewrite Hdone. Qed.

(** Without capacity the ['data'] handler only pauses: queue and
    deliveries are as before, and the state reached is the same for every
    chunk, so the chunk is kept nowhere. *)
Lemma on_data_without_capacity (b : Bridge) (chunk : list byte) :
  Web.desiredSize_positive (controller b) = false ->
  flowing (on_data b chunk) = false /\
  retained (on_data b chunk) = retained b /\
  forall chunk' : list byte, on_data b chunk' = on_data b chunk.
Proof.
  intros Hcap. unfold on_data. rewrite Hcap. simpl. auto.
Qed.

(** With capacity, and a controller that accepts it, the chunk joins the
    queue. *)
Lemma on_data_with_capacity (b : Bridge) (chunk : list byte) :
  Web.desiredSize_positive (controller b) = true ->
  Web.canCloseOrEnqueue (controller b) = true ->
  retained (on_data b chunk) = retained b ++ [chunk].
Proof.
  intros Hcap Hcan. unfold on_data, Web.enqueue, retained.
  rewrite Hcap, Hcan. simpl. now rewrite app_assoc.
Qed.

End Bridge.

(** C2: a chunk that arrives while the consumer wants nothing should be
    buffered.  With the default high-water mark the first chunk fills the
    queue; the second arrives with [desiredSize = 0], the handler pauses
    the producer and returns without storing it.  After the consumer has
    read and pulled, the third chunk goes through: the consumer has
    received the first and the third chunk, the second is lost.  The
    first half of the claim holds: nothing is delivered while the desired
    size is zero. *)
Theorem bridge_drops_chunk_without_capacity :
  let c1 := [x01] in
  let c2 := [x02] in
  let c3 := [x03] in
  let after_first := NodeStream.run NodeStream.new [NodeStream.ProducerData c1] in
  let after_second := NodeStream.step after_first (NodeStream.ProducerData c2) in
  let at_end :=
    NodeStream.run after_second
      [NodeStream.ConsumerRead; NodeStream.ConsumerPull;
       NodeStream.ProducerData c3; NodeStream.ConsumerRead;
       NodeStream.ProducerClose] in
  Web.desiredSize (NodeStream.controller after_first) = Some 0 /\
  NodeStream.flowing after_second = false /\
  NodeStream.retained after_second = [c1] /\
  NodeStream.delivered at_end = [c1; c3] /\
  Web.queue (NodeStream.controller at_end) = [] /\
  Web.state (NodeStream.controller at_end) = Web.Closed.
Proof. cbv zeta. repeat split; reflexivity. Qed.

(** C7: the bridge calls [controller.close()] at most once over any run of
    producer and consumer events.  A ['close'] notification that finds
    [done] false closes the controller and sets [done]; one that finds
    [done] true changes nothing; cancellation sets [done] without calling
    [controller.close()], so a later ['close'] is a no-op too. *)
Theorem bridge_closes_downstream_at_most_once :
  forall evs : list NodeStream.Event,
    let b := NodeStream.run NodeStream.new evs in
    (NodeStream.controller_close_calls b <= 1)%nat /\
    (NodeStream.done b = false ->
       NodeStream.controller_close_calls b = 0%nat /\
       NodeStream.done (NodeStream.on_close b) = true /\
       NodeStream.controller_close_calls (NodeStream.on_close b) = 1%nat /\
       Web.close (NodeStream.controller b) =
         Some (NodeStream.controller (NodeStream.on_close b)) /\
       Web.closeRequested (NodeStream.controller (NodeStream.on_close b)) = true) /\
    (NodeStream.done b = true -> NodeStream.on_close b = b) /\
    NodeStream.done (NodeStream.step b NodeStream.ConsumerCancel) = true /\
    NodeStream.on_close (NodeStream.step b NodeStream.ConsumerCancel) =
      NodeStream.step b NodeStream.ConsumerCancel /\
    NodeStream.controller_close_calls (NodeStream.step b NodeStream.ConsumerCancel) =
      NodeStream.controller_close_calls b.
Proof.
  intros evs b.
  pose proof (bridge_inv_run evs NodeStream.new bridge_inv_new) as Hinv.
  fold b in Hinv. unfold NodeStream.invariant in Hinv.
  split; [| split; [| split; [| split; [| split]]]].
  - destruct (NodeStream.done b); [exact Hinv | destruct Hinv as [_ ->]; lia].
  - intros Hdone. rewrite Hdone in Hinv. destruct Hinv as [Hcan Hcalls].
    unfold NodeStream.on_close, Web.close. rewrite Hdone, Hcan. simpl.
    rewrite Hcalls. auto.
  - apply on_close_noop.
  - reflexivity.
  - apply on_close_noop. reflexivity.
  - reflexivity.
Qed.

Lemma bridge_closes_downstream_at_most_once_witness :
  let evs := [NodeStream.ProducerData [x01]; NodeStream.ConsumerRead;
              NodeStream.ProducerClose; NodeStream.ProducerClose] in
  let b := NodeStream.run NodeStream.new evs in
  NodeStream.done b = true /\
  NodeStream.on_close b = b /\
  NodeStream.done (NodeStream.run NodeStream.new [NodeStream.ProducerData [x01]]) = false /\
  NodeStream.controller_close_calls
    (NodeStream.on_close
       (NodeStream.run NodeStream.new [NodeStream.ProducerData [x01]])) = 1%nat.
Proof.
  cbv zeta.
  destruct (bridge_closes_downstream_at_most_once
              [NodeStream.ProducerData [x01]; NodeStream.ConsumerRead;
               NodeStream.ProducerClose; NodeStream.ProducerClose])
    as [_ [_ [Hnoop _]]].
  destruct (bridge_closes_downstream_at_most_once [NodeStream.ProducerData [x01]])
    as [_ [Hfirst _]].
  split; [reflexivity |].
  split; [exact (Hnoop eq_refl) |].
  split; [reflexivity |].
  destruct (Hfirst eq_refl) as [_ [_ [Hone _]]]. exact Hone.
Defined.

(** ** The seek-then-read source of [DenoFile.stream] *)

Lemma seeks_app (h : Host) (calls : list Syscall) :
  List.filter is_seek (syscalls h ++ calls) = seeks h ++ List.filter is_seek calls.
Proof. unfold seeks. apply List.filter_app. Qed.

Lemma host_read_seeks (f : Handle) (h : Host) :
  seeks (snd (host_read f h)) = seeks h.
Proof.
  unfold host_read.
  destruct (descriptors h !! fd f); [| reflexivity].
  destruct (contents_of h (fd f)); [| reflexivity].
  unfold seeks at 1. simpl. rewrite seeks_app. simpl. apply app_nil_r.
Qed.

Lemma pull_seeks (self : File) (ctl : Web.Controller) (h : Host) :
  seeks (snd (DenoStream.pull self ctl h)) = seeks h.
Proof.
  unfold DenoStream.pull, mbind, IO_bind.
  pose proof (host_read_seeks (_file self) h) as Hread.
  destruct (host_read (_file self) h) as [[[value |] | e] h1]; simpl in *.
  - destruct (Web.enqueue ctl value); exact Hread.
  - destruct (Web.close ctl); exact Hread.
  - exact Hread.
Qed.

Lemma pulls_seeks (n : nat) (self : File) (ctl : Web.Controller) (h : Host) :
  seeks (snd (DenoStream.pulls n self ctl h)) = seeks h.
Proof.
  revert ctl h. induction n as [| n IH]; intros ctl h; [reflexivity |].
  simpl. destruct (Web.canCloseOrEnqueue ctl); [| reflexivity].
  unfold mbind, IO_bind.
  pose proof (pull_seeks self ctl h) as Hpull.
  destruct (DenoStream.pull self ctl h) as [[ctl' | e] h1]; simpl in *.
  - rewrite IH. exact Hpull.
  - exact Hpull.
Qed.

(** [stream()] on a file with an integer start: the stream is fresh and
    the descriptor's cursor is at the start offset. *)
Lemma stream_start_cursor
    (this : File) (h : Host) (s : Z) (desc : Descriptor) :
  _start this = JS.Num s -> 0 <= s ->
  descriptors h !! fd (_file this) = Some desc ->
  DenoStream.stream this h
    = (Resolved (SourceStream Web.new), snd (DenoStream.stream this h)) /\
  descriptors (snd (DenoStream.stream this h)) !! fd (_file this)
    = Some (mkDescriptor (d_path desc) (Z.to_nat s)) /\
  files (snd (DenoStream.stream this h)) = files h.
Proof.
  intros Hstart Hs Hdesc.
  unfold DenoStream.stream, DenoStream.start, host_seek.
  rewrite Hstart, Hdesc. simpl.
  destruct (s <? 0) eqn:Hneg; [apply Z.ltb_lt in Hneg; lia |].
  simpl. split; [reflexivity |]. split; [| reflexivity].
  apply list_lookup_insert_eq. eapply lookup_lt_Some, Hdesc.
Qed.

(** C6, as stated, fails: building the stream of [slice(3, 7)] and never
    pulling from it has already performed the seek to offset 3, because
    the seek sits in the [start] callback, which the stream constructor
    runs. *)
Lemma stream_construction_seeks :
  ~ no_seek_at_construction part_3_7 opened_host /\
  seeks opened_host = [] /\
  seeks (snd (DenoStream.stream part_3_7 opened_host)) = [SysSeek 0 3].
Proof.
  assert (Hafter : seeks (snd (DenoStream.stream part_3_7 opened_host))
                   = [SysSeek 0 3]) by (vm_compute; reflexivity).
  assert (Hbefore : seeks opened_host = []) by (vm_compute; reflexivity).
  split; [| split; assumption].
  unfold no_seek_at_construction. rewrite Hafter, Hbefore. discriminate.
Qed.

(** C6, amended: for a file whose start is a non-negative integer [s] on
    an open descriptor, [stream()] itself performs the one seek to [s],
    as the last host call before it returns, and the stream it returns is
    fresh; whatever number of pulls follows adds no seek.  For a file
    whose start is undefined [stream()] returns the handle's own readable
    and calls the host not at all. *)
Theorem seek_once_at_construction :
  forall (this : File) (h : Host),
    (forall (s : Z) (desc : Descriptor),
        _start this = JS.Num s -> 0 <= s ->
        descriptors h !! fd (_file this) = Some desc ->
        exists h1 : Host,
          DenoStream.stream this h = (Resolved (SourceStream Web.new), h1) /\
          syscalls h1 = syscalls h ++ [SysSeek (fd (_file this)) s] /\
          seeks h1 = seeks h ++ [SysSeek (fd (_file this)) s] /\
          forall (n : nat) (ctl : Web.Controller),
            seeks (snd (DenoStream.pulls n this ctl h1)) = seeks h1) /\
    (_start this = JS.Undefined ->
       DenoStream.stream this h = (Resolved (NativeReadable (_file this)), h)).
Proof.
  intros this h. split.
  - intros s desc Hstart Hs Hdesc.
    unfold DenoStream.stream, DenoStream.start, host_seek.
    rewrite Hstart, Hdesc. simpl.
    destruct (s <? 0) eqn:Hneg; [apply Z.ltb_lt in Hneg; lia |].
    eexists. split; [reflexivity |]. simpl.
    split; [reflexivity |]. split.
    + unfold seeks at 1. simpl. apply seeks_app.
    + intros n ctl. apply pulls_seeks.
  - intros Hstart. unfold DenoStream.stream. rewrite Hstart. reflexivity.
Qed.

Lemma seek_once_at_construction_witness :
  exists h1 : Host,
    DenoStream.stream part_3_7 opened_host = (Resolved (SourceStream Web.new), h1) /\
    seeks h1 = [SysSeek 0 3] /\
    seeks (snd (DenoStream.pulls 5 part_3_7 Web.new h1)) = seeks h1.
Proof.
  destruct (seek_once_at_construction part_3_7 opened_host) as [Hseek _].
  destruct (Hseek 3 (mkDescriptor "/srv/www/data.bin" 0) eq_refl ltac:(lia) eq_refl)
    as [h1 [Hstream [_ [Hseeks Hpulls]]]].
  exists h1. split; [exact Hstream |]. split; [exact Hseeks |].
  exact (Hpulls 5%nat Web.new).
Defined.

(** *** What the stream delivers *)

Lemma host_read_spec (f : Handle) (h : Host) (desc : Descriptor) (bytes : list byte) :
  descriptors h !! fd f = Some desc ->
  files h !! d_path desc = Some bytes ->
  let piece := take (Pos.to_nat (chunk h)) (drop (d_cursor desc) bytes) in
  host_read f h =
    (Resolved (match piece with [] => None | _ => Some piece end),
     after_read h (fd f) desc piece).
Proof.
  intros Hdesc Hfile piece. unfold host_read, contents_of.
  rewrite Hdesc. simpl. rewrite Hfile. reflexivity.
Qed.

(** One pull on a fresh controller: at the end of the file it closes the
    stream, otherwise it queues the next piece. *)
Lemma pull_fresh (self : File) (h : Host) (desc : Descriptor) (bytes : list byte) :
  descriptors h !! fd (_file self) = Some desc ->
  files h !! d_path desc = Some bytes ->
  let piece := take (Pos.to_nat (chunk h)) (drop (d_cursor desc) bytes) in
  DenoStream.pull self Web.new h =
    (Resolved (match piece with
               | [] => closed_controller
               | _ => Web.mkController Web.Readable [piece] false 1
               end),
     after_read h (fd (_file self)) desc piece).
Proof.
  intros Hdesc Hfile piece. unfold DenoStream.pull, mbind, IO_bind.
  rewrite (host_read_spec _ _ _ _ Hdesc Hfile). fold piece.
  destruct piece; reflexivity.
Qed.

Lemma take_drop_length {A : Type} (k : nat) (l : list A) :
  take k l ++ drop (length (take k l)) l = l.
Proof.
  rewrite length_take.
  destruct (Nat.le_gt_cases k (length l)) as [Hle | Hgt].
  - rewrite Nat.min_l by lia. apply take_drop.
  - rewrite Nat.min_r by lia. rewrite take_ge by lia.
    rewrite drop_all. apply app_nil_r.
Qed.

Lemma read_all_S (fuel : nat) (self : File) (ctl : Web.Controller) :
  DenoStream.read_all (S fuel) self ctl =
  match Web.state ctl with
  | Web.Closed => mret (Some [])
  | Web.Errored => reject TypeError
  | Web.Readable =>
      match Web.read ctl with
      | (Some chunk, ctl') =>
          rest ← DenoStream.read_all fuel self ctl';
          mret (cons chunk <$> rest)
      | (None, _) =>
          ctl' ← DenoStream.pull self ctl;
          DenoStream.read_all fuel self ctl'
      end
  end.
Proof. reflexivity. Qed.

Opaque DenoStream.read_all.

(** Read to the end from a fresh stream: the consumer receives everything
    from the cursor to the end of the file.  The file's [_end] plays no
    part. *)
Lemma read_all_to_eof (n : nat) :
  forall (self : File) (h : Host) (desc : Descriptor) (bytes : list byte),
    descriptors h !! fd (_file self) = Some desc ->
    files h !! d_path desc = Some bytes ->
    (length bytes - d_cursor desc <= n)%nat ->
    exists (chunks : list (list byte)) (h' : Host),
      DenoStream.read_all (2 * n + 2) self Web.new h = (Resolved (Some chunks), h') /\
      List.concat chunks = drop (d_cursor desc) bytes.
Proof.
  induction n as [| n IH]; intros self h desc bytes Hdesc Hfile Hlen.
  - exists [], (after_read h (fd (_file self)) desc []).
    assert (Hrest : drop (d_cursor desc) bytes = []).
    { apply drop_ge. lia. }
    split; [| now rewrite Hrest].
    change (2 * 0 + 2)%nat with 2%nat. rewrite read_all_S. simpl.
    unfold mbind, IO_bind.
    rewrite (pull_fresh _ _ _ _ Hdesc Hfile). rewrite Hrest, take_nil. reflexivity.
  - replace (2 * S n + 2)%nat with (S (S (2 * n + 2))) by lia.
    remember (2 * n + 2)%nat as fuel eqn:Hfuel.
    rewrite read_all_S. simpl. unfold mbind at 1, IO_bind at 1.
    rewrite (pull_fresh _ _ _ _ Hdesc Hfile).
    remember (take (Pos.to_nat (chunk h)) (drop (d_cursor desc) bytes)) as piece
      eqn:Hpiece.
    destruct piece as [| x piece'].
    + (* end of file: the stream closes *)
      assert (Hrest : drop (d_cursor desc) bytes = []).
      { destruct (drop (d_cursor desc) bytes) as [| y rest] eqn:Hdrop; [reflexivity |].
        destruct (Pos.to_nat (chunk h)) eqn:Hchunk; [lia | discriminate]. }
      exists [], (after_read h (fd (_file self)) desc []).
      split; [| now rewrite Hrest].
      rewrite read_all_S. reflexivity.
    + (* a piece was queued: the consumer takes it and goes on *)
      set (h1 := after_read h (fd (_file self)) desc (x :: piece')).
      set (desc1 := mkDescriptor (d_path desc)
                                 (d_cursor desc + length (x :: piece'))).
      assert (Hbound : (d_cursor desc < length bytes)%nat).
      { destruct (decide (d_cursor desc < length bytes)%nat) as [Hlt | Hge];
          [exact Hlt |].
        rewrite drop_ge in Hpiece by lia. rewrite take_nil in Hpiece.
        discriminate. }
      assert (Hdesc1 : descriptors h1 !! fd (_file self) = Some desc1).
      { unfold h1, after_read. simpl. apply list_lookup_insert_eq.
        eapply lookup_lt_Some, Hdesc. }
      assert (Hfile1 : files h1 !! d_path desc1 = Some bytes) by exact Hfile.
      assert (Hlen1 : (length bytes - d_cursor desc1 <= n)%nat).
      { unfold desc1. simpl. lia. }
      destruct (IH self h1 desc1 bytes Hdesc1 Hfile1 Hlen1)
        as [chunks [h' [Hrun Hconcat]]].
      exists ((x :: piece') :: chunks), h'. split.
      * rewrite read_all_S. simpl. unfold mbind, IO_bind.
        change (Web.mkController Web.Readable [] false 1) with Web.new.
        fold h1. rewrite Hrun. reflexivity.
      * change (List.concat ((x :: piece') :: chunks))
          with ((x :: piece') ++ List.concat chunks).
        rewrite Hconcat. unfold desc1. cbn [d_cursor].
        rewrite Hpiece. rewrite <- drop_drop.
        apply take_drop_length.
Qed.

Transparent DenoStream.read_all.

(** For every file whose start is a non-negative integer [a], streaming
    and reading to the end yields the bytes from [a] to the end of the
    underlying file, whatever [_end] is. *)
Lemma DenoFile_stream_delivers_to_eof
    (this : File) (h : Host) (desc : Descriptor) (bytes : list byte) (a : Z) :
  _start this = JS.Num a -> 0 <= a ->
  descriptors h !! fd (_file this) = Some desc ->
  files h !! d_path desc = Some bytes ->
  exists (h1 : Host) (chunks : list (list byte)) (h2 : Host),
    DenoStream.stream this h = (Resolved (SourceStream Web.new), h1) /\
    DenoStream.read_all (2 * length bytes + 2) this Web.new h1
      = (Resolved (Some chunks), h2) /\
    List.concat chunks = drop (Z.to_nat a) bytes.
Proof.
  intros Hstart Ha Hdesc Hfile.
  destruct (stream_start_cursor this h a desc Hstart Ha Hdesc)
    as [Hstream [Hdesc1 Hfiles]].
  set (h1 := snd (DenoStream.stream this h)) in *.
  assert (Hfile1 : files h1 !! d_path (mkDescriptor (d_path desc) (Z.to_nat a))
                   = Some bytes) by (rewrite Hfiles; exact Hfile).
  destruct (read_all_to_eof (length bytes) this h1
              (mkDescriptor (d_path desc) (Z.to_nat a)) bytes Hdesc1 Hfile1)
    as [chunks [h2 [Hrun Hconcat]]]; [simpl; lia |].
  exists h1, chunks, h2. auto.
Qed.

(** C1: streaming [file.slice(a, b)] should yield the [b - a] bytes
    [[a, b)].  On the ten-byte file, [slice(3, 7)] reports size 4, but its
    Deno stream delivers the seven bytes 3 to 9: [stream()] seeks to
    [_start] and then forwards the handle's reader until the end of the
    file, and never consults [_end]. *)
Theorem DenoFile_stream_reads_past_end :
  size part_3_7 = JS.Num 4 /\
  settled (read_slice "/srv/www" "data.bin"
                      (JS.Num 3) (JS.Num 7) 22 sample_host)
    = Resolved (Some [x03; x04; x05; x06; x07; x08; x09]) /\
  settled (read_slice "/srv/www" "data.bin"
                      (JS.Num 3) (JS.Num 7) 22 sample_host)
    <> Resolved (Some (take 4 (drop 3 ten_bytes))).
Proof.
  assert (Hrun : settled (read_slice "/srv/www" "data.bin"
                                     (JS.Num 3) (JS.Num 7) 22 sample_host)
                 = Resolved (Some [x03; x04; x05; x06; x07; x08; x09]))
    by (vm_compute; reflexivity).
  split; [reflexivity |]. split; [exact Hrun |].
  rewrite Hrun. vm_compute. discriminate.
Qed.

(** The Node stream of the same slice asks the host for
    [{ start: 3, end: 7 }], a range the host reads with both bounds
    included; a consumer that keeps up receives the five bytes 3 to 7. *)
Example NodeFile_stream_end_inclusive :
  let part := slice (NodeFile.new (mkHandle 0) (JS.Num 0) (JS.Num 10))
                    (JS.Num 3) (JS.Num 7) in
  size part = JS.Num 4 /\
  fst (NodeStream.stream part ten_bytes) = Some [x03; x04; x05; x06; x07] /\
  NodeStream.delivered
    (NodeStream.run (snd (NodeStream.stream part ten_bytes))
       [NodeStream.ProducerData [x03; x04; x05; x06; x07];
        NodeStream.ConsumerRead; NodeStream.ProducerClose])
    = [[x03; x04; x05; x06; x07]].
Proof. cbv zeta. repeat split; reflexivity. Qed.

(** * Further properties *)

(** ** Chains of [slice] *)

Lemma cond_falsy (c d : JS.value) : JS.truthy c = false -> JS.cond c c d = d.
Proof. intros Hc. unfold JS.cond. now rewrite Hc. Qed.








(** ** Opening through a tree or by path *)

(** The host after a successful open and stat of [path]. *)
Lemma open_stat_run {A : Type} (k : Handle -> Z -> A) (path : string) (h : Host)
    (bytes : list byte) :
  files h !! path = Some bytes ->
  (f ← host_open path; n ← host_stat f; mret (k f n)) h =
    (Resolved (k (mkHandle (length (descriptors h))) (Z.of_nat (length bytes))),
     mkHost (files h) (descriptors h ++ [mkDescriptor path 0%nat])
            (picked h) (chunk h)
            ((syscalls h ++ [SysOpen path (length (descriptors h))])
               ++ [SysStat (length (descriptors h))])).
Proof.
  intros Hfile. unfold mbind, IO_bind, host_open. rewrite Hfile.
  unfold host_stat, contents_of. simpl.
  rewrite lookup_app_r by lia. rewrite Nat.sub_diag. simpl.
  rewrite Hfile. reflexivity.
Qed.

Lemma DenoTree_openFile_run (root path : string) (h : Host) (bytes : list byte) :
  files h !! Path.join root path = Some bytes ->
  tree_openFile (DenoDirectoryTree root) path h =
    (Resolved (LibraryFile (DenoFile.new (mkHandle (length (descriptors h)))
                                         (JS.Num 0)
                                         (JS.Num (Z.of_nat (length bytes))))),
     mkHost (files h)
            (descriptors h ++ [mkDescriptor (Path.join root path) 0%nat])
            (picked h) (chunk h)
            ((syscalls h ++ [SysOpen (Path.join root path) (length (descriptors h))])
               ++ [SysStat (length (descriptors h))])).
Proof.
  intros Hfile.
  exact (open_stat_run
           (fun f n => LibraryFile (DenoFile.new f (JS.Num 0) (JS.Num n)))
           _ h bytes Hfile).
Qed.

(** X3: for an entry that exists at the joined path, [openFile] of the
    Node tree and of the Deno tree resolves to a file on a descriptor
    that was not open before, spanning [[0, n)] with size [n], the length
    of the entry.  The host has made exactly one open and one stat, the
    new descriptor reads the entry from offset 0, and the file system is
    as it was. *)
Theorem tree_openFile_existing :
  forall (root path : string) (h : Host) (bytes : list byte),
    files h !! Path.join root path = Some bytes ->
    exists h' : Host,
      tree_openFile (NodeDirectoryTree root) path h =
        (Resolved (LibraryFile (NodeFile.new (mkHandle (length (descriptors h)))
                                             (JS.Num 0)
                                             (JS.Num (Z.of_nat (length bytes))))),
         h') /\
      tree_openFile (DenoDirectoryTree root) path h =
        (Resolved (LibraryFile (DenoFile.new (mkHandle (length (descriptors h)))
                                             (JS.Num 0)
                                             (JS.Num (Z.of_nat (length bytes))))),
         h') /\
      size (NodeFile.new (mkHandle (length (descriptors h))) (JS.Num 0)
                         (JS.Num (Z.of_nat (length bytes))))
        = JS.Num (Z.of_nat (length bytes)) /\
      descriptors h !! length (descriptors h) = None /\
      descriptors h' !! length (descriptors h)
        = Some (mkDescriptor (Path.join root path) 0%nat) /\
      contents_of h' (length (descriptors h)) = Some bytes /\
      files h' = files h /\
      syscalls h' = syscalls h ++ [SysOpen (Path.join root path) (length (descriptors h));
                                   SysStat (length (descriptors h))].
Proof.
  intros root path h bytes Hfile. eexists.
  split; [exact (open_stat_run
                   (fun f n => LibraryFile (NodeFile.new f (JS.Num 0) (JS.Num n)))
                   _ h bytes Hfile) |].
  split; [exact (DenoTree_openFile_run root path h bytes Hfile) |].
  split; [cbv [size NodeFile.new new_File _size JS.sub JS.to_number];
          now rewrite Z.sub_0_r |].
  split; [apply lookup_ge_None_2; lia |].
  assert (Hnew : (descriptors h ++ [mkDescriptor (Path.join root path) 0%nat])
                   !! length (descriptors h)
                 = Some (mkDescriptor (Path.join root path) 0%nat)).
  { rewrite lookup_app_r by lia. now rewrite Nat.sub_diag. }
  split; [exact Hnew |].
  split; [unfold contents_of; simpl; rewrite Hnew; simpl; exact Hfile |].
  split; [reflexivity |].
  simpl. now rewrite <- app_assoc.
Qed.

Lemma tree_openFile_existing_witness :
  exists h' : Host,
    tree_openFile (NodeDirectoryTree "/srv/www") "data.bin" sample_host =
      (Resolved (LibraryFile (NodeFile.new (mkHandle 0) (JS.Num 0) (JS.Num 10))), h') /\
    contents_of h' 0 = Some ten_bytes /\
    syscalls h' = [SysOpen "/srv/www/data.bin" 0; SysStat 0].
Proof.
  destruct (tree_openFile_existing "/srv/www" "data.bin" sample_host ten_bytes)
    as [h' [Hnode [_ [_ [_ [_ [Hcontents [_ Hcalls]]]]]]]].
  - vm_compute. reflexivity.
  - exists h'. split; [exact Hnode | split; [exact Hcontents | exact Hcalls]].
Defined.



(** ** The in-memory tree *)

Lemma store_app (own : gmap string HostFile) (l1 l2 : list HostFile) :
  BrowserTree.store own (l1 ++ l2) = BrowserTree.store (BrowserTree.store own l1) l2.
Proof. unfold BrowserTree.store. apply fold_left_app. Qed.

Lemma store_lookup_other (selection : list HostFile) :
  forall (own : gmap string HostFile) (k : string),
    Forall (fun o => ("/" ++ BrowserTree.file_name o)%string <> k) selection ->
    BrowserTree.store own selection !! k = own !! k.
Proof.
  induction selection as [| o rest IH]; intros own k Hall; [reflexivity |].
  inversion Hall as [| ? ? Ho Hrest]; subst.
  change (BrowserTree.store own (o :: rest))
    with (BrowserTree.store (<[("/" ++ BrowserTree.file_name o)%string := o]> own) rest).
  rewrite (IH _ k Hrest). now apply lookup_insert_ne.
Qed.

Lemma store_lookup_kept (selection : list HostFile) :
  forall (own : gmap string HostFile) (k : string),
    is_Some (own !! k) -> is_Some (BrowserTree.store own selection !! k).
Proof.
  induction selection as [| o rest IH]; intros own k Hk; [exact Hk |].
  change (BrowserTree.store own (o :: rest))
    with (BrowserTree.store (<[("/" ++ BrowserTree.file_name o)%string := o]> own) rest).
  apply IH. rewrite lookup_insert. case_decide; [eauto | exact Hk].
Qed.

Lemma openFile_own (own : gmap string HostFile) (k : string) (o : HostFile) (h : Host) :
  own !! k = Some o ->
  BrowserTree.openFile own k h = (Resolved (HostObject o), h).
Proof.
  intros Hk. unfold BrowserTree.openFile, get_property. now rewrite Hk.
Qed.

(** X5: after [addFiles()], [openFile('/' + name)] resolves to the picked
    file of that name, the last one if the selection holds several of
    the same name; [addFiles()] itself returns the selection and leaves
    the host as it was. *)
Theorem addFiles_then_openFile :
  forall (_files : gmap string HostFile) (h : Host)
         (before : list HostFile) (o : HostFile) (after : list HostFile),
    picked h = before ++ o :: after ->
    Forall (fun o' => BrowserTree.file_name o' <> BrowserTree.file_name o) after ->
    exists updated : gmap string HostFile,
      BrowserTree.addFiles _files h = (Resolved (updated, picked h), h) /\
      tree_openFile (BrowserDirectoryTree updated)
                    ("/" ++ BrowserTree.file_name o)%string h
        = (Resolved (HostObject o), h).
Proof.
  intros _files h before o after Hpicked Hafter.
  exists (BrowserTree.store _files (picked h)). split; [reflexivity |].
  simpl. apply openFile_own. rewrite Hpicked, store_app.
  change (BrowserTree.store (BrowserTree.store _files before) (o :: after))
    with (BrowserTree.store
            (<[("/" ++ BrowserTree.file_name o)%string := o]>
               (BrowserTree.store _files before)) after).
  rewrite store_lookup_other.
  - apply lookup_insert_eq.
  - eapply Forall_impl; [exact Hafter |].
    intros o' Hne Heq. apply Hne. now injection Heq.
Qed.

Lemma addFiles_then_openFile_witness :
  let first := DomFile "a.txt" [x01] in
  let second := DomFile "a.txt" [x02] in
  let other := DomFile "b.txt" [x03] in
  let h := mkHost ∅ [] [first; second; other] 4%positive [] in
  exists updated : gmap string HostFile,
    BrowserTree.addFiles ∅ h = (Resolved (updated, [first; second; other]), h) /\
    tree_openFile (BrowserDirectoryTree updated) "/a.txt" h
      = (Resolved (HostObject second), h).
Proof.
  cbv zeta.
  apply (addFiles_then_openFile ∅
           (mkHost ∅ [] [DomFile "a.txt" [x01]; DomFile "a.txt" [x02];
                         DomFile "b.txt" [x03]] 4%positive [])
           [DomFile "a.txt" [x01]] (DomFile "a.txt" [x02]) [DomFile "b.txt" [x03]]).
  - reflexivity.
  - repeat constructor. simpl. discriminate.
Defined.

Lemma no_slash_not_stored (k : string) (selection : list HostFile) :
  Path.starts_with_slash k = false ->
  Forall (fun o => ("/" ++ BrowserTree.file_name o)%string <> k) selection.
Proof.
  intros Hk. apply Forall_forall. intros o _ Heq. subst k. discriminate.
Qed.

(** X6: [addFiles()] stores only under names that begin with a slash and
    removes nothing.  A path that does not begin with a slash resolves
    after the call exactly as before it; so on a tree that was empty a
    picked file is not found under its bare name: that lookup rejects
    with "No such file", unless the name is one that every plain object
    inherits.  A path that resolved before still resolves. *)
Theorem addFiles_only_slash_names :
  forall (_files : gmap string HostFile) (h : Host) (path : string),
    (Path.starts_with_slash path = false ->
       tree_openFile (BrowserDirectoryTree (BrowserTree.store _files (picked h))) path h
         = tree_openFile (BrowserDirectoryTree _files) path h) /\
    (Path.starts_with_slash path = false ->
       existsb (String.eqb path) Object_prototype = false ->
       tree_openFile (BrowserDirectoryTree (BrowserTree.store ∅ (picked h))) path h
         = (Rejected NoSuchFile, h)) /\
    (is_Some (_files !! path) ->
       exists o : HostFile,
         tree_openFile (BrowserDirectoryTree (BrowserTree.store _files (picked h))) path h
           = (Resolved (HostObject o), h)).
Proof.
  intros _files h path. split; [| split].
  - intros Hslash. simpl. unfold BrowserTree.openFile, get_property.
    now rewrite (store_lookup_other _ _ _ (no_slash_not_stored _ _ Hslash)).
  - intros Hslash Hproto. simpl. apply BrowserTree_openFile_missing; [| exact Hproto].
    rewrite (store_lookup_other _ _ _ (no_slash_not_stored _ _ Hslash)).
    apply lookup_empty.
  - intros Hsome.
    destruct (store_lookup_kept (picked h) _files path Hsome) as [o Ho].
    exists o. simpl. now apply openFile_own.
Qed.

Lemma addFiles_only_slash_names_witness :
  let h := mkHost ∅ [] [DomFile "a.txt" [x01]] 4%positive [] in
  tree_openFile (BrowserDirectoryTree (BrowserTree.store ∅ (picked h))) "a.txt" h
    = (Rejected NoSuchFile, h) /\
  exists o : HostFile,
    tree_openFile
      (BrowserDirectoryTree
         (BrowserTree.store {[ "/old.txt"%string := DomFile "old.txt" [] ]} (picked h)))
      "/old.txt" h
    = (Resolved (HostObject o), h).
Proof.
  cbv zeta. split.
  - destruct (addFiles_only_slash_names ∅
                (mkHost ∅ [] [DomFile "a.txt" [x01]] 4%positive []) "a.txt")
      as [_ [Hbare _]].
    apply Hbare; reflexivity.
  - destruct (addFiles_only_slash_names
                {[ "/old.txt"%string := DomFile "old.txt" [] ]}
                (mkHost ∅ [] [DomFile "a.txt" [x01]] 4%positive []) "/old.txt")
      as [_ [_ Hkept]].
    apply Hkept. rewrite lookup_singleton_eq. eauto.
Defined.

(** ** Runtime detection and [openDirectory] *)



(** ** More on the bridge of [NodeFile.stream] *)

Lemma steady_new : steady NodeStream.new.
Proof.
  constructor; simpl; try reflexivity; try lia; try discriminate; auto.
Qed.

Lemma steady_step (b : NodeStream.Bridge) (e : NodeStream.Event) :
  steady b -> steady (NodeStream.step b e).
Proof.
  intros [Hhwm Hthrown Hq Hst Hclosed Hpend Hopen].
  destruct b as [dn [st q creq hwm] fl ccc ncc thr dl]. simpl in *. subst hwm thr.
  destruct st; [| | contradiction].
  - (* readable *)
    destruct q as [| x [| y q]]; [| | simpl in Hq; lia].
    + destruct creq; [exfalso; exact (Hpend eq_refl eq_refl eq_refl) |].
      destruct e, dn; constructor; simpl; intros;
        try reflexivity; try lia; try discriminate; try congruence.
    + destruct creq.
      * destruct dn; [| specialize (Hopen eq_refl); discriminate].
        destruct e; constructor; simpl; intros;
          try reflexivity; try lia; try discriminate; try congruence.
      * destruct e, dn; constructor; simpl; intros;
          try reflexivity; try lia; try discriminate; try congruence.
  - (* closed *)
    rewrite (Hclosed eq_refl) in *.
    destruct dn; [| specialize (Hopen eq_refl); discriminate].
    destruct e, creq; constructor; simpl; intros;
      try reflexivity; try lia; try discriminate; try congruence.
Qed.

Lemma steady_run (evs : list NodeStream.Event) (b : NodeStream.Bridge) :
  steady b -> steady (NodeStream.run b evs).
Proof.
  revert b. induction evs as [| e evs IH]; intros b Hb; [exact Hb |].
  simpl. apply IH, steady_step, Hb.
Qed.

(** X8: over every run of producer and consumer events the bridge holds
    at most one chunk that has not been read, none of its handlers
    throws ([enqueue] and [close] are only called on a controller that
    accepts them), and the stream is never errored. *)
Theorem bridge_bounded_and_never_throws :
  forall evs : list NodeStream.Event,
    let b := NodeStream.run NodeStream.new evs in
    (length (Web.queue (NodeStream.controller b)) <= 1)%nat /\
    NodeStream.thrown b = 0%nat /\
    Web.state (NodeStream.controller b) <> Web.Errored /\
    (Web.state (NodeStream.controller b) = Web.Closed ->
       Web.queue (NodeStream.controller b) = []).
Proof.
  intros evs b.
  destruct (steady_run evs NodeStream.new steady_new)
    as [_ Hthrown Hq Hst Hclosed _ _].
  auto.
Qed.

Lemma bridge_bounded_and_never_throws_witness :
  let b := NodeStream.run NodeStream.new
             [NodeStream.ProducerData [x01]; NodeStream.ProducerClose;
              NodeStream.ConsumerRead] in
  Web.state (NodeStream.controller b) = Web.Closed /\
  Web.queue (NodeStream.controller b) = [].
Proof.
  cbv zeta.
  destruct (bridge_bounded_and_never_throws
              [NodeStream.ProducerData [x01]; NodeStream.ProducerClose;
               NodeStream.ConsumerRead])
    as [_ [_ [_ Hclosed]]].
  split; [reflexivity | exact (Hclosed eq_refl)].
Defined.

Lemma retained_step (b : NodeStream.Bridge) (e : NodeStream.Event) :
  NodeStream.retained (NodeStream.step b e)
    `sublist_of` NodeStream.retained b ++ emitted e.
Proof.
  destruct b as [dn [st q creq hwm] fl ccc ncc thr dl].
  unfold NodeStream.retained, emitted.
  destruct e as [chunk | | | |]; simpl.
  - unfold NodeStream.on_data, Web.enqueue. simpl.
    destruct (Web.desiredSize_positive _); simpl;
      [destruct (Web.canCloseOrEnqueue _); simpl |].
    + now rewrite app_assoc.
    + now apply sublist_inserts_r.
    + now apply sublist_inserts_r.
  - rewrite app_nil_r. unfold NodeStream.on_close, Web.close. simpl.
    destruct dn; simpl; [reflexivity |].
    destruct (Web.canCloseOrEnqueue _); reflexivity.
  - rewrite app_nil_r. unfold NodeStream.pull.
    destruct (Web.desiredSize_positive _); reflexivity.
  - rewrite app_nil_r. unfold Web.read. simpl.
    destruct st; try reflexivity.
    destruct q as [| x rest]; simpl; [reflexivity |].
    now rewrite <- app_assoc.
  - rewrite app_nil_r. unfold Web.cancel. simpl.
    destruct st; simpl; try reflexivity.
    apply sublist_app; [reflexivity | apply sublist_nil_l].
Qed.

Lemma retained_run (evs : list NodeStream.Event) :
  forall b : NodeStream.Bridge,
    NodeStream.retained (NodeStream.run b evs)
      `sublist_of` NodeStream.retained b ++ produced evs.
Proof.
  induction evs as [| e evs IH]; intros b.
  - simpl. now rewrite app_nil_r.
  - change (NodeStream.run b (e :: evs)) with (NodeStream.run (NodeStream.step b e) evs).
    change (produced (e :: evs)) with (emitted e ++ produced evs).
    etrans; [apply IH |].
    rewrite app_assoc. apply sublist_app; [apply retained_step | reflexivity].
Qed.

(** X9: the bridge neither reorders, nor repeats, nor invents data.  Over
    every run of events, what the consumer has received followed by what
    is still queued is a subsequence, in order, of the chunks the
    producer emitted; so is what the consumer has received. *)
Theorem bridge_delivers_subsequence :
  forall evs : list NodeStream.Event,
    NodeStream.retained (NodeStream.run NodeStream.new evs) `sublist_of` produced evs /\
    NodeStream.delivered (NodeStream.run NodeStream.new evs) `sublist_of` produced evs.
Proof.
  intros evs.
  pose proof (retained_run evs NodeStream.new) as Hrun. simpl in Hrun.
  split; [exact Hrun |].
  etrans; [| exact Hrun].
  unfold NodeStream.retained. apply sublist_inserts_r. reflexivity.
Qed.




(** A chunk that arrives at an empty, open queue and is read at once
    leaves the bridge as it was, with the chunk delivered. *)
Lemma data_then_read (b : NodeStream.Bridge) (chunk : list byte) :
  NodeStream.controller b = Web.new ->
  NodeStream.step (NodeStream.step b (NodeStream.ProducerData chunk))
                  NodeStream.ConsumerRead
  = NodeStream.mkBridge (NodeStream.done b) Web.new (NodeStream.flowing b)
      (NodeStream.controller_close_calls b) (NodeStream.nodeStream_close_calls b)
      (NodeStream.thrown b) (NodeStream.delivered b ++ [chunk]).
Proof.
  destruct b as [dn ctl fl ccc ncc thr dl]. simpl. intros ->. reflexivity.
Qed.

Lemma keeping_up_reads (chunks : list (list byte)) :
  forall b : NodeStream.Bridge,
    NodeStream.controller b = Web.new ->
    NodeStream.run b
      (flat_map (fun chunk => [NodeStream.ProducerData chunk; NodeStream.ConsumerRead])
                chunks)
    = NodeStream.mkBridge (NodeStream.done b) Web.new (NodeStream.flowing b)
        (NodeStream.controller_close_calls b) (NodeStream.nodeStream_close_calls b)
        (NodeStream.thrown b) (NodeStream.delivered b ++ chunks).
Proof.
  induction chunks as [| chunk chunks IH]; intros b Hctl.
  - simpl. rewrite app_nil_r. destruct b. simpl in *. now subst.
  - change (NodeStream.run b
              (flat_map (fun c => [NodeStream.ProducerData c; NodeStream.ConsumerRead])
                        (chunk :: chunks)))
      with (NodeStream.run
              (NodeStream.step (NodeStream.step b (NodeStream.ProducerData chunk))
                               NodeStream.ConsumerRead)
              (flat_map (fun c => [NodeStream.ProducerData c; NodeStream.ConsumerRead])
                        chunks)).
    rewrite (data_then_read b chunk Hctl). rewrite IH by reflexivity.
    simpl. now rewrite <- app_assoc.
Qed.

(** X11: with a consumer that reads each chunk before the next arrives,
    the bridge loses nothing and never pauses the producer: for every
    sequence of chunks, after the producer has closed the consumer has
    received exactly that sequence, the stream is closed with an empty
    queue, and [controller.close()] has been called once. *)
Theorem bridge_keeping_up_delivers_all :
  forall chunks : list (list byte),
    let b := NodeStream.run NodeStream.new (keeping_up chunks) in
    NodeStream.delivered b = chunks /\
    produced (keeping_up chunks) = chunks /\
    NodeStream.flowing b = true /\
    NodeStream.done b = true /\
    Web.state (NodeStream.controller b) = Web.Closed /\
    Web.queue (NodeStream.controller b) = [] /\
    NodeStream.controller_close_calls b = 1%nat.
Proof.
  intros chunks b. unfold b, keeping_up, NodeStream.run.
  rewrite fold_left_app.
  fold (NodeStream.run NodeStream.new
          (flat_map (fun chunk => [NodeStream.ProducerData chunk; NodeStream.ConsumerRead])
                    chunks)).
  rewrite (keeping_up_reads chunks NodeStream.new eq_refl). simpl.
  repeat split; try reflexivity.
  unfold produced. rewrite flat_map_app. simpl. rewrite app_nil_r.
  induction chunks as [| c cs IH]; [reflexivity |].
  simpl. now rewrite IH.
Qed.

Lemma burst_without_capacity (chunks : list (list byte)) :
  forall b : NodeStream.Bridge,
    Web.desiredSize_positive (NodeStream.controller b) = false ->
    NodeStream.retained (NodeStream.run b (burst chunks)) = NodeStream.retained b /\
    NodeStream.delivered (NodeStream.run b (burst chunks)) = NodeStream.delivered b /\
    (chunks <> [] -> NodeStream.flowing (NodeStream.run b (burst chunks)) = false).
Proof.
  induction chunks as [| c cs IH]; intros b Hcap.
  - simpl. repeat split; try reflexivity. intros H. now contradiction H.
  - change (NodeStream.run b (burst (c :: cs)))
      with (NodeStream.run (NodeStream.on_data b c) (burst cs)).
    assert (Hstep : NodeStream.on_data b c
                    = NodeStream.mkBridge (NodeStream.done b) (NodeStream.controller b)
                        false (NodeStream.controller_close_calls b)
                        (NodeStream.nodeStream_close_calls b) (NodeStream.thrown b)
                        (NodeStream.delivered b)).
    { unfold NodeStream.on_data. now rewrite Hcap. }
    rewrite Hstep.
    destruct (IH (NodeStream.mkBridge (NodeStream.done b) (NodeStream.controller b)
                    false (NodeStream.controller_close_calls b)
                    (NodeStream.nodeStream_close_calls b) (NodeStream.thrown b)
                    (NodeStream.delivered b)) Hcap)
      as [Hret [Hdel Hflow]].
    split; [exact Hret |]. split; [exact Hdel |].
    intros _. destruct cs as [| c' cs']; [reflexivity |].
    apply Hflow. discriminate.
Qed.

(** X12: of a run of chunks that the producer emits on a new stream
    before the consumer reads, only the first is kept: after the burst
    the queue holds that chunk alone, nothing has been delivered, and, if
    more than one chunk came, the producer is paused.  All chunks after
    the first are gone. *)
Theorem bridge_burst_keeps_first_only :
  forall (first : list byte) (more : list (list byte)),
    let b := NodeStream.run NodeStream.new (burst (first :: more)) in
    produced (burst (first :: more)) = first :: more /\
    NodeStream.retained b = [first] /\
    Web.queue (NodeStream.controller b) = [first] /\
    NodeStream.delivered b = [] /\
    (more <> [] -> NodeStream.flowing b = false).
Proof.
  intros first more b.
  assert (Hprod : produced (burst (first :: more)) = first :: more).
  { unfold produced, burst. induction (first :: more) as [| c cs IH]; [reflexivity |].
    simpl. now rewrite IH. }
  split; [exact Hprod |].
  unfold b.
  change (NodeStream.run NodeStream.new (burst (first :: more)))
    with (NodeStream.run (NodeStream.on_data NodeStream.new first) (burst more)).
  destruct (burst_without_capacity more (NodeStream.on_data NodeStream.new first) eq_refl)
    as [Hret [Hdel Hflow]].
  split; [exact Hret |].
  split; [| split; [exact Hdel | exact Hflow]].
  unfold NodeStream.retained in Hret. rewrite Hdel in Hret. exact Hret.
Qed.

Lemma bridge_burst_keeps_first_only_witness :
  let b := NodeStream.run NodeStream.new (burst [[x01]; [x02]; [x03]]) in
  NodeStream.retained b = [[x01]] /\ NodeStream.flowing b = false.
Proof.
  cbv zeta.
  destruct (bridge_burst_keeps_first_only [x01] [[x02]; [x03]])
    as [_ [Hret [_ [_ Hflow]]]].
  split; [exact Hret | apply Hflow; discriminate].
Defined.

(** ** Streams end to end *)

Lemma slice_start_nonneg (f : File) (a : Z) (e : JS.value) :
  _start f = JS.Num 0 -> 0 <= a -> _start (slice f (JS.Num a) e) = JS.Num a.
Proof.
  intros Hstart Ha. rewrite slice_unfold. simpl. unfold JS.cond. simpl.
  destruct (a =? 0) eqn:Hz; simpl; [| reflexivity].
  apply Z.eqb_eq in Hz. now rewrite Hstart, Hz.
Qed.

Lemma read_slice_from (root path : string) (h : Host) (bytes : list byte)
    (s e : JS.value) (n : Z) :
  files h !! Path.join root path = Some bytes ->
  0 <= n ->
  _start (slice (DenoFile.new (mkHandle (length (descriptors h))) (JS.Num 0)
                              (JS.Num (Z.of_nat (length bytes)))) s e) = JS.Num n ->
  settled (read_slice root path s e (2 * length bytes + 2) h)
    = Resolved (Some (drop (Z.to_nat n) bytes)).
Proof.
  intros Hfile Hn Hstart.
  unfold read_slice, settled. unfold mbind at 1, IO_bind at 1.
  rewrite (DenoTree_openFile_run root path h bytes Hfile).
  set (file := DenoFile.new (mkHandle (length (descriptors h))) (JS.Num 0)
                            (JS.Num (Z.of_nat (length bytes)))) in *.
  set (h1 := mkHost (files h)
                    (descriptors h ++ [mkDescriptor (Path.join root path) 0%nat])
                    (picked h) (chunk h)
                    ((syscalls h ++ [SysOpen (Path.join root path)
                                             (length (descriptors h))])
                       ++ [SysStat (length (descriptors h))])).
  assert (Hdesc : descriptors h1 !! fd (_file (slice file s e))
                  = Some (mkDescriptor (Path.join root path) 0%nat)).
  { rewrite slice_unfold. simpl.
    rewrite lookup_app_r by lia. now rewrite Nat.sub_diag. }
  destruct (DenoFile_stream_delivers_to_eof (slice file s e) h1
              (mkDescriptor (Path.join root path) 0%nat) bytes n
              Hstart Hn Hdesc Hfile)
    as [h2 [chunks [h3 [Hstream [Hread Hconcat]]]]].
  cbv zeta. unfold mbind, IO_bind. rewrite Hstream, Hread. simpl.
  now rewrite Hconcat.
Qed.

(** X13: under Deno, opening an existing entry through a tree, slicing it
    at a start [a >= 0] and any end, streaming and reading to the end
    gives the consumer the bytes of the entry from offset [a] up to the
    end of the entry: the end bound of the slice has no effect on what is
    streamed.  Without bounds the consumer receives the whole entry.  The
    fuel [2 * length + 2] is enough for every chunk size of the host. *)
Theorem deno_slice_stream_reads_tail :
  forall (root path : string) (h : Host) (bytes : list byte) (a : Z) (e : JS.value),
    files h !! Path.join root path = Some bytes ->
    0 <= a ->
    settled (read_slice root path (JS.Num a) e (2 * length bytes + 2) h)
      = Resolved (Some (drop (Z.to_nat a) bytes)) /\
    settled (read_slice root path JS.Undefined JS.Undefined (2 * length bytes + 2) h)
      = Resolved (Some bytes).
Proof.
  intros root path h bytes a e Hfile Ha. split.
  - apply read_slice_from; auto. now apply slice_start_nonneg.
  - replace (Some bytes) with (Some (drop (Z.to_nat 0) bytes)) by reflexivity.
    apply read_slice_from; auto. lia.
Qed.

Lemma deno_slice_stream_reads_tail_witness :
  settled (read_slice "/srv/www" "data.bin" (JS.Num 6) (JS.Num 8) 22 sample_host)
    = Resolved (Some [x06; x07; x08; x09]) /\
  settled (read_slice "/srv/www" "data.bin" JS.Undefined JS.Undefined 22 sample_host)
    = Resolved (Some ten_bytes).
Proof.
  apply (deno_slice_stream_reads_tail "/srv/www" "data.bin" sample_host ten_bytes
           6 (JS.Num 8)).
  - vm_compute. reflexivity.
  - lia.
Defined.

(** X14: the Node stream asks the host for the range
    [{ start: _start, end: _end }], whose end the host includes.  For a
    file spanning [[a, b)] with [b] inside the entry the producer emits
    the [b - a + 1] bytes from [a] to [b], one more than the file's
    size; when [b] is at or past the end of the entry, as for a file
    just opened through a tree, it emits the bytes from [a] to the end;
    a file without bounds gets the whole entry. *)
Theorem node_stream_requests_inclusive_range :
  forall (this : File) (bytes : list byte),
    (forall a b : Z,
        _start this = JS.Num a -> _end this = JS.Num b -> 0 <= a <= b ->
        fst (NodeStream.stream this bytes)
          = Some (drop (Z.to_nat a) (take (S (Z.to_nat b)) bytes)) /\
        (b < Z.of_nat (length bytes) ->
           Z.of_nat (length (drop (Z.to_nat a) (take (S (Z.to_nat b)) bytes)))
             = b - a + 1) /\
        (Z.of_nat (length bytes) <= b ->
           drop (Z.to_nat a) (take (S (Z.to_nat b)) bytes) = drop (Z.to_nat a) bytes)) /\
    (_start this = JS.Undefined -> _end this = JS.Undefined ->
       fst (NodeStream.stream this bytes) = Some bytes).
Proof.
  intros this bytes. split.
  - intros a b Hstart Hend Hab.
    unfold NodeStream.stream, NodeStream.createReadStream. simpl.
    rewrite Hstart, Hend.
    destruct (a <? 0) eqn:Hna; [apply Z.ltb_lt in Hna; lia |].
    destruct (b <? 0) eqn:Hnb; [apply Z.ltb_lt in Hnb; lia |].
    split; [reflexivity |]. split.
    + intros Hb. rewrite length_drop, length_take. lia.
    + intros Hb. rewrite take_ge by lia. reflexivity.
  - intros Hstart Hend.
    unfold NodeStream.stream, NodeStream.createReadStream. simpl.
    rewrite Hstart, Hend. rewrite take_ge by lia. reflexivity.
Qed.

Lemma node_stream_requests_inclusive_range_witness :
  let part := slice (NodeFile.new (mkHandle 0) (JS.Num 0) (JS.Num 10))
                    (JS.Num 3) (JS.Num 7) in
  fst (NodeStream.stream part ten_bytes) = Some [x03; x04; x05; x06; x07] /\
  Z.of_nat (length [x03; x04; x05; x06; x07]) = 7 - 3 + 1 /\
  fst (NodeStream.stream (NodeFile.new (mkHandle 0) JS.Undefined JS.Undefined) ten_bytes)
    = Some ten_bytes.
Proof.
  cbv zeta.
  destruct (node_stream_requests_inclusive_range
              (slice (NodeFile.new (mkHandle 0) (JS.Num 0) (JS.Num 10))
                     (JS.Num 3) (JS.Num 7)) ten_bytes) as [Hrange _].
  destruct (Hrange 3 7 eq_refl eq_refl ltac:(lia)) as [Hemit [Hlen _]].
  destruct (node_stream_requests_inclusive_range
              (NodeFile.new (mkHandle 0) JS.Undefined JS.Undefined) ten_bytes)
    as [_ Hwhole].
  split; [exact Hemit |]. split; [apply Hlen; simpl; lia |].
  exact (Hwhole eq_refl eq_refl).
Defined.

(** ** Resuming the producer *)

(** Once [done] is set the controller accepts neither chunks nor a
    close. *)
Lemma done_step (b : NodeStream.Bridge) (e : NodeStream.Event) :
  (NodeStream.done b = true ->
     Web.canCloseOrEnqueue (NodeStream.controller b) = false) ->
  NodeStream.done (NodeStream.step b e) = true ->
  Web.canCloseOrEnqueue (NodeStream.controller (NodeStream.step b e)) = false.
Proof.
  destruct b as [dn [st q creq hwm] fl ccc ncc thr dl]. simpl.
  unfold Web.canCloseOrEnqueue. simpl. intros Hinv.
  destruct e as [chunk | | | |]; simpl;
    unfold NodeStream.on_data, NodeStream.on_close, NodeStream.pull,
           Web.enqueue, Web.close, Web.read, Web.cancel,
           Web.desiredSize_positive, Web.desiredSize, Web.canCloseOrEnqueue;
    simpl;
    destruct st, creq, dn; simpl in *;
    try destruct (0 <? hwm - Z.of_nat (length q));
    try destruct q as [| x [| y rest]]; simpl;
    intros; try reflexivity; try discriminate;
    try (specialize (Hinv eq_refl); discriminate); auto.
Qed.

Lemma done_run (evs : list NodeStream.Event) :
  forall b : NodeStream.Bridge,
    (NodeStream.done b = true ->
       Web.canCloseOrEnqueue (NodeStream.controller b) = false) ->
    NodeStream.done (NodeStream.run b evs) = true ->
    Web.canCloseOrEnqueue (NodeStream.controller (NodeStream.run b evs)) = false.
Proof.
  induction evs as [| e evs IH]; intros b Hinv; [exact Hinv |].
  simpl. apply IH. apply done_step, Hinv.
Qed.

(** X15: a pull resumes the producer exactly while the stream is open.
    In every state the bridge can reach with [done] false, one read
    followed by one pull leaves the producer flowing, whether or not it
    had been paused; once [done] is true (after the producer's close or a
    cancel) a read followed by a pull leaves the producer's mode as it
    was, so a paused producer is not resumed. *)
Theorem bridge_pull_resumes_while_open :
  forall evs : list NodeStream.Event,
    let b := NodeStream.run NodeStream.new evs in
    let next := NodeStream.run b [NodeStream.ConsumerRead; NodeStream.ConsumerPull] in
    (NodeStream.done b = false -> NodeStream.flowing next = true) /\
    (NodeStream.done b = true -> NodeStream.flowing next = NodeStream.flowing b).
Proof.
  intros evs b next.
  pose proof (done_run evs NodeStream.new ltac:(discriminate)) as Hdone.
  destruct (steady_run evs NodeStream.new steady_new)
    as [Hhwm _ Hq Hst Hclosed Hpend Hopen].
  fold b in Hdone, Hhwm, Hq, Hst, Hclosed, Hpend, Hopen.
  unfold next. clearbody b. clear next evs.
  destruct b as [dn [st q creq hwm] fl ccc ncc thr dl]. simpl in *. subst hwm.
  split; intros ->.
  - specialize (Hopen eq_refl). unfold Web.canCloseOrEnqueue in Hopen. simpl in Hopen.
    destruct st; try discriminate. destruct creq; try discriminate.
    destruct q as [| x [| y rest]]; [reflexivity | reflexivity | simpl in Hq; lia].
  - specialize (Hdone eq_refl). unfold Web.canCloseOrEnqueue in Hdone. simpl in Hdone.
    destruct st; [| rewrite (Hclosed eq_refl); reflexivity | contradiction].
    destruct creq; [| discriminate].
    destruct q as [| x [| y rest]];
      [exfalso; exact (Hpend eq_refl eq_refl eq_refl) | reflexivity
      | simpl in Hq; lia].
Qed.

Lemma bridge_pull_resumes_while_open_witness :
  let paused := NodeStream.run NodeStream.new (burst [[x01]; [x02]]) in
  let ended := NodeStream.run paused [NodeStream.ProducerClose] in
  NodeStream.flowing paused = false /\
  NodeStream.flowing
    (NodeStream.run paused [NodeStream.ConsumerRead; NodeStream.ConsumerPull]) = true /\
  NodeStream.flowing
    (NodeStream.run ended [NodeStream.ConsumerRead; NodeStream.ConsumerPull]) = false.
Proof.
  cbv zeta.
  destruct (bridge_pull_resumes_while_open (burst [[x01]; [x02]])) as [Hopen _].
  destruct (bridge_pull_resumes_while_open
              (burst [[x01]; [x02]] ++ [NodeStream.ProducerClose])) as [_ Hdone].
  split; [reflexivity |].
  split; [exact (Hopen eq_refl) |].
  exact (Hdone eq_refl).
Defined.
